(** * Loudness analysis and highlighting pipeline ([audio_plot_graph.py])

    A shallow embedding of the numeric core of [audio_plot_graph.py] and of
    the control flow of its renderer and entry point.

    Conventions of the embedding:
    - a Python [int] is a [Z];
    - the frame duration is a binary64 number, a [float] of [PrimFloat], and
      its product with the sample rate is the IEEE product [SFmul], rounded
      to nearest even, because the frame count hangs on its integer part;
    - every other Python or numpy [float] (samples, time stamps, loudness
      values) is a real number [R], read in exact arithmetic;
    - a one-dimensional numpy array is a [list];
    - a Python exception is a value of [exn], and code that may raise
      returns a [result];
    - calls into matplotlib, moviepy, scipy and [os] whose failure the
      program cannot decide are parameters of the functions that use them. *)

From Stdlib Require Import PrimFloat SpecFloat FloatOps.
From Stdlib Require Import Reals ZArith String List Bool Lia Lra.
Import ListNotations.

Local Open Scope R_scope.

(** ** Exceptions and results *)

Inductive exn : Type :=
| ZeroDivisionError
| ValueError
| IndexError
| TypeError
| OSError
| OverflowError
| RuntimeError (cause : exn).

Inductive result (A : Type) : Type :=
| Ok (a : A)
| Raise (e : exn).

Arguments Ok {A} a.
Arguments Raise {A} e.

Definition bind {A B : Type} (r : result A) (k : A -> result B) : result B :=
  match r with
  | Ok a => k a
  | Raise e => Raise e
  end.

Notation "x <- r ;; k" := (bind r (fun x => k))
  (at level 61, r at next level, right associativity).

(** [try: body  except Exception as err: raise RuntimeError(...)] *)
Definition wrap_runtime {A : Type} (r : result A) : result A :=
  match r with
  | Ok a => Ok a
  | Raise e => Raise (RuntimeError e)
  end.

(** [for x in xs: s = body(s, x)], leaving the loop at the first exception. *)
Fixpoint for_each {S A : Type} (body : S -> A -> result S) (xs : list A) (s : S)
  : result S :=
  match xs with
  | [] => Ok s
  | x :: xs' =>
      match body s x with
      | Ok s' => for_each body xs' s'
      | Raise e => Raise e
      end
  end.

(** ** Python and numpy primitives *)

(** [float(n)] for a Python int, as the left operand of [n * x] is
    converted: the nearest binary64 number, ties to even, and
    [OverflowError] when [n] is too large for one. *)
Definition double_of_int (n : Z) : result spec_float :=
  match binary_normalize prec emax n 0 false with
  | S754_infinity _ => Raise OverflowError
  | x => Ok x
  end.

(** [int(x)] on a binary64 number: truncation toward zero; infinities and
    nan are refused. *)
Definition int_of_double (x : spec_float) : result Z :=
  match x with
  | S754_zero _ => Ok 0%Z
  | S754_infinity _ => Raise OverflowError
  | S754_nan => Raise ValueError
  | S754_finite s m e =>
      let a :=
        if (0 <=? e)%Z then (Zpos m * 2 ^ e)%Z else (Zpos m / 2 ^ (- e))%Z in
      Ok (if s then (- a)%Z else a)
  end.

(** The real number a finite binary64 number stands for. *)
Definition float_value (x : spec_float) : R :=
  match x with
  | S754_finite s m e =>
      let v :=
        if (0 <=? e)%Z then IZR (Zpos m * 2 ^ e)
        else IZR (Zpos m) / IZR (2 ^ (- e)) in
      if s then - v else v
  | _ => 0
  end.

(** [int(x)] on a float read as a real number: truncation toward zero. *)
Definition int_of_float (x : R) : Z :=
  if Rle_dec 0 x then Int_part x else (- Int_part (- x))%Z.

(** [np.ceil]: the least integer not below [x], as a float. *)
Definition np_ceil (x : R) : R := IZR (- Int_part (- x)).

(** [a / b] on two Python ints: true division. *)
Definition true_div (a b : Z) : result R :=
  if (b =? 0)%Z then Raise ZeroDivisionError else Ok (IZR a / IZR b).

(** [len(l)] *)
Definition len {A : Type} (l : list A) : Z := Z.of_nat (length l).

(** [range(n)] *)
Definition range (n : Z) : list Z := map Z.of_nat (seq 0 (Z.to_nat n)).

(** Normalisation of one bound of a slice [l[start:stop]] of a sequence of
    length [n]: a negative bound counts from the end, and the result is
    clipped to [0..n]. *)
Definition slice_bound (n i : Z) : Z :=
  let j := if (i <? 0)%Z then (i + n)%Z else i in
  Z.max 0 (Z.min n j).

(** [l[start:stop]] *)
Definition py_slice {A : Type} (l : list A) (start stop : Z) : list A :=
  let lo := slice_bound (len l) start in
  let hi := slice_bound (len l) stop in
  firstn (Z.to_nat (hi - lo)) (skipn (Z.to_nat lo) l).

Definition Rsum (l : list R) : R := fold_right Rplus 0 l.

(** [np.mean] of a non-empty array. *)
Definition np_mean (l : list R) : R := Rsum l / INR (length l).

(** [np.log10] *)
Definition log10 (x : R) : R := ln x / ln 10.

Definition Rltb (x y : R) : bool := if Rlt_dec x y then true else false.
Definition Rleb (x y : R) : bool := if Rle_dec x y then true else false.

(** ** [compute_loudness] *)

(** [np.sqrt(np.mean(frame.astype(float) ** 2))] *)
Definition rms_of (frame : list R) : R :=
  sqrt (np_mean (map (fun x => x ^ 2) frame)).

(** The branch on [rms] that produces the decibel value of one frame. *)
Definition db_of_rms (rms : R) : R :=
  if Rltb rms 1e-10 then -100 else 20 * log10 (rms / 2 ^ 15).

(** One iteration of the loop over [range(n_frames)]; the state is the pair
    of accumulators [(loudness_db, times)]. *)
Definition frame_body (audio : list R) (sr : Z) (frame_size : Z)
    (st : list R * list R) (i : Z) : result (list R * list R) :=
  let '(loudness_db, times) := st in
  let start := (i * frame_size)%Z in
  let stop := Z.min ((i + 1) * frame_size) (len audio) in
  let frame := py_slice audio start stop in
  if (len frame =? 0)%Z then Ok st
  else
    let rms := rms_of frame in
    let db := db_of_rms rms in
    t <- true_div start sr ;;
    Ok (loudness_db ++ [db], times ++ [t]).

(** [sr * frame_duration] on an int and a float: the binary64 product. *)
Definition double_product (sr : Z) (frame_duration : float) : result spec_float :=
  x <- double_of_int sr ;;
  Ok (SFmul prec emax x (Prim2SF frame_duration)).

(** [frame_size = int(sr * frame_duration)] *)
Definition frame_size (sr : Z) (frame_duration : float) : result Z :=
  product <- double_product sr frame_duration ;;
  int_of_double product.

(** Returns [(times, loudness_db)]. *)
Definition compute_loudness (audio : list R) (sr : Z) (frame_duration : float)
  : result (list R * list R) :=
  wrap_runtime
    (frame_size <- frame_size sr frame_duration ;;
     q <- true_div (len audio) frame_size ;;
     let n_frames := int_of_float (np_ceil q) in
     st <- for_each (frame_body audio sr frame_size) (range n_frames) ([], []) ;;
     let '(loudness_db, times) := st in
     Ok (times, loudness_db)).

(** ** [moving_average] *)

(** [np.ones(n)]: a negative dimension is refused. *)
Definition np_ones (n : Z) : result (list R) :=
  if (n <? 0)%Z then Raise ValueError else Ok (repeat 1 (Z.to_nat n)).

(** [a[i]] read as [0] outside the array: the terms a correlation leaves out
    at the two ends. *)
Definition get (a : list R) (i : Z) : R :=
  if (i <? 0)%Z then 0 else nth (Z.to_nat i) a 0.

(** [multiarray.correlate(a, v, mode='same')] for [len(v) <= len(a)]: the
    output has the length of [a], and [n_left = len(v) // 2] of its entries
    overlap [a] only partly on the left. *)
Definition correlate_same (a v : list R) : list R :=
  let n := len v in
  let n_left := (n / 2)%Z in
  map (fun k => Rsum (map (fun j => get a (k - n_left + j) * get v j) (range n)))
      (range (len a)).

(** [np.convolve(a, v, mode='same')]: the longer argument comes first, empty
    arguments are refused, and the convolution is the correlation with the
    reversed second argument. *)
Definition np_convolve_same (a v : list R) : result (list R) :=
  let '(a, v) := if (len a <? len v)%Z then (v, a) else (a, v) in
  if (len a =? 0)%Z then Raise ValueError
  else if (len v =? 0)%Z then Raise ValueError
  else Ok (correlate_same a (rev v)).

Definition moving_average (data : list R) (window_size : Z) : result (list R) :=
  ones <- np_ones window_size ;;
  np_convolve_same data (map (fun x => x / IZR window_size) ones).

(** ** Highlight specifications and the highlight condition *)

(** One entry of [highlights]: the keyword arguments of
    [highlight_audio_section]; [alpha] and [above] may be left out. *)
Record highlight : Type := {
  start_time : R;
  end_time : R;
  threshold : R;
  color : string;
  alpha : option R;
  above : option bool
}.

(** Element-wise [a & b] on boolean arrays, with numpy's broadcasting of an
    array of length one. *)
Definition np_and (a b : list bool) : result (list bool) :=
  if (length a =? length b)%nat then Ok (map (fun p => fst p && snd p) (combine a b))
  else if (length a =? 1)%nat then Ok (map (andb (hd false a)) b)
  else if (length b =? 1)%nat then Ok (map (fun x => x && hd false b) a)
  else Raise ValueError.

(** [condition] of [highlight_audio_section], in either branch on [above]. *)
Definition highlight_condition (times loudness : list R)
    (start_time end_time threshold : R) (above : bool) : result (list bool) :=
  let ge_start := map (fun t => Rleb start_time t) times in
  let le_end := map (fun t => Rleb t end_time) times in
  let beyond :=
    if above then map (fun v => Rltb threshold v) loudness
    else map (fun v => Rltb v threshold) loudness in
  in_range <- np_and ge_start le_end ;;
  np_and in_range beyond.

(** ** The chart, the file system and the console *)

(** What [fill_between] draws. *)
Record overlay : Type := {
  ov_x : list R;
  ov_y1 : list R;
  ov_y2 : R;
  ov_where : list bool;
  ov_color : string;
  ov_alpha : R
}.

(** The artists added to the axes, in the order of their creation. *)
Inductive artist : Type :=
| Curve (x y : list R) (label : string)
| HLine (y : R) (label : string)
| Fill (ov : overlay)
| LegendLine (line_color : string) (label : string).

Record axes : Type := {
  children : list artist;
  xlim : option (R * R);
  ylim : option (R * R);
  legend : list string
}.

Inductive wav_data : Type :=
| Mono (samples : list R)
| MultiChannel (rows : list (list R)).

Inductive file : Type :=
| WavFile (sr : Z) (data : wav_data)
| ChartFile (chart : axes)
| OtherFile.

Definition file_system : Type := string -> option file.

Definition write_file (fs : file_system) (path : string) (f : file) : file_system :=
  fun p => if String.eqb p path then Some f else fs p.

Definition delete_file (fs : file_system) (path : string) : file_system :=
  fun p => if String.eqb p path then None else fs p.

(** The lines the program prints. *)
Inductive message : Type :=
| Warning_failed_to_highlight (h : highlight) (err : exn)
| Error_saving_figure (save_path : string) (err : exn)
| Error_in_main (err : exn)
| Error_removing_temp_audio (err : exn).

Record world : Type := {
  files : file_system;
  stdout : list message
}.

(** A video clip as [VideoFileClip] returns it: its audio track, if any,
    with the rate and the channels the track has in the video. *)
Record clip : Type := {
  audio : option (Z * wav_data)
}.

(** The calls whose outcome the program does not decide. [None] from an
    [_error] field means that the call returns normally. *)
Record externals : Type := {
  fill_between_error :
    list R -> list R -> R -> list bool -> string -> R -> option exn;
  (** the limits an axis takes when [set_xlim] or [set_ylim] asks for a
      pair: matplotlib moves apart limits that coincide *)
  axis_limits : R -> R -> R * R;
  (** the file [savefig] writes for a name: matplotlib appends its default
      extension to a name that has none *)
  savefig_path : string -> string;
  savefig_error : string -> option exn;
  VideoFileClip : string -> result clip;
  (** the sample rate and the channels [write_audiofile] stores for a track:
      moviepy resamples to its own rate and channel count *)
  written_audio : Z * wav_data -> Z * wav_data;
  write_audiofile_error : Z * wav_data -> string -> option exn;
  (** what a write that fails leaves at its path, from what was there *)
  after_failed_write : string -> option file -> option file;
  remove_error : string -> option exn;
  path_join : string -> string -> string
}.

(** Computations on the [world] that may raise. *)
Definition M (A : Type) : Type := world -> world * result A.

Definition ret {A : Type} (a : A) : M A := fun w => (w, Ok a).

Definition raise {A : Type} (e : exn) : M A := fun w => (w, Raise e).

Definition lift {A : Type} (r : result A) : M A := fun w => (w, r).

Definition bindM {A B : Type} (m : M A) (k : A -> M B) : M B :=
  fun w =>
    match m w with
    | (w', Ok a) => k a w'
    | (w', Raise e) => (w', Raise e)
    end.

Notation "x <~ m ;; k" := (bindM m (fun x => k))
  (at level 61, m at next level, right associativity).
Notation "m ;;; k" := (bindM m (fun _ => k))
  (at level 61, right associativity).

(** [print(...)] *)
Definition print (msg : message) : M unit :=
  fun w => ({| files := files w; stdout := stdout w ++ [msg] |}, Ok tt).

(** [try: body  except Exception as err: handler(err)] *)
Definition try_except {A : Type} (body : M A) (handler : exn -> M A) : M A :=
  fun w =>
    match body w with
    | (w', Ok a) => (w', Ok a)
    | (w', Raise e) => handler e w'
    end.

(** [try: body  finally: cleanup]: the cleanup runs on both exits, and an
    exception it raises replaces the outcome of the body. *)
Definition try_finally {A : Type} (body : M A) (cleanup : M unit) : M A :=
  fun w =>
    match body w with
    | (w', r) =>
        match cleanup w' with
        | (w'', Ok _) => (w'', r)
        | (w'', Raise e) => (w'', Raise e)
        end
    end.

(** [os.path.exists(path)] *)
Definition os_path_exists (path : string) : M bool :=
  fun w => (w, Ok (match files w path with Some _ => true | None => false end)).

(** [os.remove(path)] *)
Definition os_remove (E : externals) (path : string) : M unit :=
  fun w =>
    match files w path with
    | None => (w, Raise OSError)
    | Some _ =>
        match remove_error E path with
        | Some e => (w, Raise e)
        | None =>
            ({| files := delete_file (files w) path; stdout := stdout w |}, Ok tt)
        end
    end.

(** ** [highlight_audio_section] *)

Definition add_child (ax : axes) (a : artist) : axes :=
  {| children := children ax ++ [a];
     xlim := xlim ax; ylim := ylim ax; legend := legend ax |}.

(** Returns the axes with the overlay drawn. *)
Definition highlight_audio_section (E : externals) (ax : axes)
    (times loudness : list R) (h : highlight) : result axes :=
  let alpha := match alpha h with Some a => a | None => 0.3 end in
  let above := match above h with Some b => b | None => false end in
  wrap_runtime
    (condition <-
       highlight_condition times loudness
         (start_time h) (end_time h) (threshold h) above ;;
     match
       fill_between_error E times loudness (threshold h) condition (color h) alpha
     with
     | Some e => Raise e
     | None =>
         Ok (add_child ax
               (Fill {| ov_x := times; ov_y1 := loudness; ov_y2 := threshold h;
                        ov_where := condition; ov_color := color h;
                        ov_alpha := alpha |}))
     end).

(** ** [plot_loudness] *)

Definition empty_axes : axes :=
  {| children := []; xlim := None; ylim := None; legend := [] |}.

(** [ax.plot(x, y, label=...)]: the two arrays must have the same length. *)
Definition ax_plot (ax : axes) (x y : list R) (label : string) : result axes :=
  if (length x =? length y)%nat then Ok (add_child ax (Curve x y label))
  else Raise ValueError.

(** [l[-1]] *)
Definition py_last (l : list R) : result R :=
  match l with
  | [] => Raise IndexError
  | _ :: _ => Ok (last l 0)
  end.

Definition label_of (a : artist) : string :=
  match a with
  | Curve _ _ l => l
  | HLine _ l => l
  | Fill _ => ""
  | LegendLine _ l => l
  end.

(** The loop that keeps the first handle of every non-empty label; [unique]
    holds the labels kept so far. *)
Fixpoint dedupe (unique : list string) (labels : list string) : list string :=
  match labels with
  | [] => unique
  | l :: rest =>
      if negb (existsb (String.eqb l) unique) && negb (String.eqb l "")
      then dedupe (unique ++ [l]) rest
      else dedupe unique rest
  end.

(** A write to [path] that fails. *)
Definition fail_write (E : externals) (path : string) (fs : file_system)
  : file_system :=
  fun p => if String.eqb p path then after_failed_write E path (fs path) else fs p.

(** [plt.savefig(save_path, ...)] *)
Definition savefig (E : externals) (save_path : string) (ax : axes) : M unit :=
  fun w =>
    let target := savefig_path E save_path in
    match savefig_error E save_path with
    | Some e =>
        ({| files := fail_write E target (files w); stdout := stdout w |}, Raise e)
    | None =>
        ({| files := write_file (files w) target (ChartFile ax);
            stdout := stdout w |}, Ok tt)
    end.

(** The loop over [highlights]: every call of [highlight_audio_section] is
    inside its own [try], whose handler prints a warning. *)
Fixpoint highlight_each (E : externals) (times loudness : list R)
    (highlights : list highlight) (ax : axes) : M axes :=
  match highlights with
  | [] => ret ax
  | h :: rest =>
      ax' <~ try_except
               (lift (highlight_audio_section E ax times loudness h))
               (fun err => print (Warning_failed_to_highlight h err) ;;; ret ax) ;;
      highlight_each E times loudness rest ax'
  end.

Definition plot_loudness (E : externals) (times loudness : list R)
    (save_path : string) (highlights : option (list highlight)) : M unit :=
  try_except
    (ax <~ lift (ax_plot empty_axes times loudness "Loudness in dB") ;;
     let ax := add_child ax (HLine (-22) "High Audio -22 dB") in
     let ax := add_child ax (HLine (-26) "Low Audio -26 dB") in
     ax <~ match highlights with
           | Some (h :: rest) => highlight_each E times loudness (h :: rest) ax
           | _ => ret ax
           end ;;
     let ax := add_child ax (LegendLine "blue" "Detected low audio for >= 5s") in
     let ax := add_child ax (LegendLine "red" "Detected high audio for >= 5s") in
     let ax := add_child ax (LegendLine "gray" "Detected no audio for >= 5s") in
     let ax := {| children := children ax; xlim := xlim ax;
                  ylim := Some (axis_limits E (-60) 0); legend := legend ax |} in
     _ <~ lift (py_last times) ;;
     right <~ lift (py_last times) ;;
     let ax := {| children := children ax; xlim := Some (axis_limits E 0 right);
                  ylim := ylim ax; legend := legend ax |} in
     let ax := {| children := children ax; xlim := xlim ax; ylim := ylim ax;
                  legend := dedupe [] (map label_of (children ax)) |} in
     if String.eqb save_path "" then ret tt
     else
       try_finally
         (try_except (savefig E save_path ax)
            (fun err => print (Error_saving_figure save_path err)))
         (ret tt))
    (fun err => raise (RuntimeError err)).

(** ** The pipeline *)

Definition extract_audio_from_video (E : externals) (video_path audio_path : string)
  : M unit :=
  clip <~ lift (VideoFileClip E video_path) ;;
  match audio clip with
  | Some track =>
      fun w =>
        match write_audiofile_error E track audio_path with
        | Some e =>
            ({| files := fail_write E audio_path (files w); stdout := stdout w |},
             Raise e)
        | None =>
            let '(sr, data) := written_audio E track in
            ({| files := write_file (files w) audio_path (WavFile sr data);
                stdout := stdout w |}, Ok tt)
        end
  | None => raise ValueError
  end.

(** Returns [(sr, audio)], with several channels averaged into one. *)
Definition read_audio (audio_path : string) : M (Z * list R) :=
  fun w =>
    match files w audio_path with
    | Some (WavFile sr (Mono samples)) => (w, Ok (sr, samples))
    | Some (WavFile sr (MultiChannel rows)) => (w, Ok (sr, map np_mean rows))
    | Some _ => (w, Raise ValueError)
    | None => (w, Raise OSError)
    end.

Definition AUDIO_TEMP_PATH : string := "temp_audio.wav".
Definition FRAME_DURATION : float := 0.1%float.
Definition smooth_window : Z := 3.

Definition main (E : externals) (video_path output_graph_path graph_name : string)
    (highlights : list highlight) : M unit :=
  let save_path := path_join E output_graph_path graph_name in
  try_finally
    (try_except
       (extract_audio_from_video E video_path AUDIO_TEMP_PATH ;;;
        sr_audio <~ read_audio AUDIO_TEMP_PATH ;;
        let '(sr, audio) := sr_audio in
        series <~ lift (compute_loudness audio sr FRAME_DURATION) ;;
        let '(times, loudness_db) := series in
        loudness_db_smooth <~ lift (moving_average loudness_db smooth_window) ;;
        plot_loudness E times loudness_db_smooth save_path (Some highlights))
       (fun err => print (Error_in_main err)))
    (present <~ os_path_exists AUDIO_TEMP_PATH ;;
     if (present : bool)
     then try_except (os_remove E AUDIO_TEMP_PATH)
            (fun err => print (Error_removing_temp_audio err))
     else ret tt).

(** ** Notions the statements below are phrased in *)

(** The frame of index [i]: [audio[start:end]] of the loop body. *)
Definition frame_at (audio : list R) (fs i : Z) : list R :=
  py_slice audio (i * fs) (Z.min ((i + 1) * fs) (len audio)).

(** The number of iterations of the loop for a non-zero frame size: the
    ceiling of [len(audio) / frame_size]. *)
Definition n_frames_of (audio : list R) (fs : Z) : Z := (- ((- len audio) / fs))%Z.

(** The spec's reading of the frame size: [z] is [x] rounded to a nearest
    integer, whatever the rule for ties. *)
Definition rounds_to (x : R) (z : Z) : Prop := Rabs (x - IZR z) <= 1 / 2.

(** The entry of the mask for one time stamp and one loudness value. *)
Definition mask_entry (start_time end_time threshold : R) (above : bool)
    (t v : R) : bool :=
  Rleb start_time t && Rleb t end_time &&
  (if above then Rltb threshold v else Rltb v threshold).

(** The warnings the loop over [highlights] prints, and the overlays it draws. *)
Definition highlight_warnings (E : externals) (times loudness : list R)
    (highlights : list highlight) : list message :=
  flat_map
    (fun h =>
       match highlight_audio_section E empty_axes times loudness h with
       | Ok _ => []
       | Raise err => [Warning_failed_to_highlight h err]
       end)
    highlights.

Definition highlight_overlays (E : externals) (times loudness : list R)
    (highlights : list highlight) : list artist :=
  flat_map
    (fun h =>
       match highlight_audio_section E empty_axes times loudness h with
       | Ok ax => children ax
       | Raise _ => []
       end)
    highlights.

Definition add_children (ax : axes) (l : list artist) : axes :=
  {| children := children ax ++ l;
     xlim := xlim ax; ylim := ylim ax; legend := legend ax |}.

Definition add_stdout (w : world) (l : list message) : world :=
  {| files := files w; stdout := stdout w ++ l |}.

(** [highlights] as the loop sees it: [None] and the empty list run no
    iteration. *)
Definition highlights_of (highlights : option (list highlight)) : list highlight :=
  match highlights with
  | Some l => l
  | None => []
  end.

(** The chart [plot_loudness] hands to [savefig]. *)
Definition rendered_chart (E : externals) (times loudness : list R)
    (highlights : list highlight) : axes :=
  let artists :=
    [Curve times loudness "Loudness in dB";
     HLine (-22) "High Audio -22 dB";
     HLine (-26) "Low Audio -26 dB"]
    ++ highlight_overlays E times loudness highlights
    ++ [LegendLine "blue" "Detected low audio for >= 5s";
        LegendLine "red" "Detected high audio for >= 5s";
        LegendLine "gray" "Detected no audio for >= 5s"] in
  {| children := artists;
     xlim := Some (axis_limits E 0 (last times 0));
     ylim := Some (axis_limits E (-60) 0);
     legend := dedupe [] (map label_of artists) |}.

(** The same external calls, except that [os.remove] does not fail. *)
Definition with_remove_ok (E : externals) : externals :=
  {| fill_between_error := fill_between_error E;
     axis_limits := axis_limits E;
     savefig_path := savefig_path E;
     savefig_error := savefig_error E;
     VideoFileClip := VideoFileClip E;
     written_audio := written_audio E;
     write_audiofile_error := write_audiofile_error E;
     after_failed_write := after_failed_write E;
     remove_error := fun _ => None;
     path_join := path_join E |}.

(** ** Example inputs *)

(** External calls among which [fill_between] refuses one colour and
    [VideoFileClip] cannot open the video. *)
Definition example_externals : externals :=
  {| fill_between_error :=
       fun _ _ _ _ color _ =>
         if String.eqb color "no such colour" then Some ValueError else None;
     axis_limits := fun lo hi => (lo, hi);
     savefig_path := fun name => name;
     savefig_error := fun _ => None;
     VideoFileClip := fun _ => Raise OSError;
     written_audio := fun track => track;
     write_audiofile_error := fun _ _ => None;
     after_failed_write := fun _ old => old;
     remove_error := fun _ => None;
     path_join := fun dir name => String.append dir (String.append "/" name) |}.

Definition example_highlights : list highlight :=
  [ {| start_time := 0; end_time := 1; threshold := -20;
       color := "no such colour"; alpha := None; above := None |};
    {| start_time := 0; end_time := 1; threshold := -20;
       color := "blue"; alpha := Some 0.3; above := Some false |} ].

(** A world in which a temporary audio file was left behind. *)
Definition stale_world : world :=
  {| files := fun p => if String.eqb p AUDIO_TEMP_PATH then Some OtherFile else None;
     stdout := [] |}.

(** ** The stages of [main], for the statements about it *)

(** The part of [main] that follows the reading of the waveform. *)
Definition analyse_and_plot (E : externals) (sr : Z) (audio : list R)
    (save_path : string) (highlights : list highlight) : M unit :=
  series <~ lift (compute_loudness audio sr FRAME_DURATION) ;;
  let '(times, loudness_db) := series in
  loudness_db_smooth <~ lift (moving_average loudness_db smooth_window) ;;
  plot_loudness E times loudness_db_smooth save_path (Some highlights).

(** What [main] does with the outcome of its [try] block: the handler
    prints the exception, then the [finally] block removes the temporary
    file if there is one. *)
Definition conclude (E : externals) (outcome : world * result unit)
  : world * result unit :=
  let wb :=
    match snd outcome with
    | Ok _ => fst outcome
    | Raise err => add_stdout (fst outcome) [Error_in_main err]
    end in
  match files wb AUDIO_TEMP_PATH with
  | None => (wb, Ok tt)
  | Some _ =>
      match remove_error E AUDIO_TEMP_PATH with
      | None =>
          ({| files := delete_file (files wb) AUDIO_TEMP_PATH;
              stdout := stdout wb |}, Ok tt)
      | Some err => (add_stdout wb [Error_removing_temp_audio err], Ok tt)
      end
  end.

(** The line the handler of [main] prints for the outcome of the [try]. *)
Definition failure_report (r : result unit) : list message :=
  match r with
  | Ok _ => []
  | Raise err => [Error_in_main err]
  end.

(** The line the [finally] block prints when it finds the temporary file. *)
Definition removal_report (E : externals) : list message :=
  match remove_error E AUDIO_TEMP_PATH with
  | None => []
  | Some err => [Error_removing_temp_audio err]
  end.

(** The world in which [main] analyses the waveform. *)
Definition extracted (w : world) (sr : Z) (data : wav_data) : world :=
  {| files := write_file (files w) AUDIO_TEMP_PATH (WavFile sr data);
     stdout := stdout w |}.

(** The waveform [read_audio] returns for the data of a file. *)
Definition to_mono (data : wav_data) : list R :=
  match data with
  | Mono samples => samples
  | MultiChannel rows => map np_mean rows
  end.

(** [int(sr * frame_duration)] for a frame duration given by its binary64
    representation. *)
Definition frame_size_of (sr : Z) (fd : spec_float) : result Z :=
  match double_of_int sr with
  | Ok x => int_of_double (SFmul prec emax x fd)
  | Raise e => Raise e
  end.

(** Whether the frame size is [sr // 10] for the [n] sample rates from
    [sr] on. *)
Fixpoint tenth_below (fd : spec_float) (n : nat) (sr : Z) : bool :=
  match n with
  | O => true
  | S n' =>
      match frame_size_of sr fd with
      | Ok fs => (fs =? sr / 10)%Z
      | Raise _ => false
      end && tenth_below fd n' (sr + 1)
  end.

(** ** More example inputs *)

(** External calls that all succeed, for a video whose audio track is
    written as it is. *)
Definition video_externals (sr : Z) (data : wav_data) : externals :=
  {| fill_between_error := fun _ _ _ _ _ _ => None;
     axis_limits := fun lo hi => (lo, hi);
     savefig_path := fun name => name;
     savefig_error := fun _ => None;
     VideoFileClip := fun _ => Ok {| audio := Some (sr, data) |};
     written_audio := fun track => track;
     write_audiofile_error := fun _ _ => None;
     after_failed_write := fun _ old => old;
     remove_error := fun _ => None;
     path_join := fun dir name => String.append dir (String.append "/" name) |}.

(** * Properties *)

(** ** Integer parts of real numbers *)

Lemma Int_part_IZR (z : Z) : Int_part (IZR z) = z.
Proof. symmetry. apply Int_part_spec. lra. Qed.

Lemma int_of_float_IZR (z : Z) : int_of_float (IZR z) = z.
Proof.
  unfold int_of_float. destruct (Rle_dec 0 (IZR z)).
  - apply Int_part_IZR.
  - rewrite <- opp_IZR, Int_part_IZR. lia.
Qed.

Lemma Int_part_div (a b : Z) :
  b <> 0%Z -> Int_part (IZR a / IZR b) = (a / b)%Z.
Proof.
  intros Hb. symmetry. apply Int_part_spec.
  pose proof (Z.div_mod a b Hb) as Hdm.
  assert (Hr : IZR a = IZR b * IZR (a / b) + IZR (a mod b)).
  { rewrite <- mult_IZR, <- plus_IZR. now f_equal. }
  assert (HbR : IZR b <> 0) by (now apply not_0_IZR).
  assert (Hq : IZR a / IZR b = IZR (a / b) + IZR (a mod b) / IZR b).
  { rewrite Hr. field. exact HbR. }
  rewrite Hq.
  destruct (Z_lt_le_dec 0 b) as [Hpos | Hneg].
  - pose proof (Z.mod_pos_bound a b Hpos) as [H0 H1].
    apply IZR_le in H0. apply IZR_lt in H1. apply IZR_lt in Hpos.
    assert (0 <= IZR (a mod b) / IZR b < 1).
    { split.
      - apply Rmult_le_pos; [lra | left; now apply Rinv_0_lt_compat].
      - apply Rmult_lt_reg_r with (IZR b); [lra|]. field_simplify; lra. }
    lra.
  - assert (Hlt : (b < 0)%Z) by lia.
    pose proof (Z.mod_neg_bound a b Hlt) as [H0 H1].
    apply IZR_lt in H0. apply IZR_le in H1. apply IZR_lt in Hlt.
    assert (0 <= IZR (a mod b) / IZR b < 1).
    { replace (IZR (a mod b) / IZR b) with ((- IZR (a mod b)) / (- IZR b)) by (field; lra).
      split.
      - apply Rmult_le_pos; [lra | left; apply Rinv_0_lt_compat; lra].
      - apply Rmult_lt_reg_r with (- IZR b); [lra|]. field_simplify; lra. }
    lra.
Qed.

Lemma int_ceil_div (a b : Z) :
  b <> 0%Z -> int_of_float (np_ceil (IZR a / IZR b)) = (- ((- a) / b))%Z.
Proof.
  intros Hb. unfold np_ceil. rewrite int_of_float_IZR.
  replace (- (IZR a / IZR b)) with (IZR (- a) / IZR b).
  - now rewrite Int_part_div.
  - rewrite opp_IZR. field. now apply not_0_IZR.
Qed.

(** ** The loop of [compute_loudness] *)

Lemma for_each_append {A : Type} (f g : A -> R)
    (body : list R * list R -> A -> result (list R * list R)) (xs : list A) :
  (forall a l t, In a xs -> body (l, t) a = Ok (l ++ [f a], t ++ [g a])) ->
  forall l t, for_each body xs (l, t) = Ok (l ++ map f xs, t ++ map g xs).
Proof.
  induction xs as [| x xs IH]; intros Hbody l t; simpl.
  - now rewrite !app_nil_r.
  - rewrite Hbody by now left.
    rewrite IH by (intros; apply Hbody; now right).
    now rewrite <- !app_assoc.
Qed.

Lemma in_range (n i : Z) : In i (range n) <-> (0 <= i < n)%Z.
Proof.
  unfold range. rewrite in_map_iff. split.
  - intros [k [<- Hk]]. apply in_seq in Hk. lia.
  - intros Hi. exists (Z.to_nat i). split; [lia |]. apply in_seq. lia.
Qed.

Lemma range_nonpos (n : Z) : (n <= 0)%Z -> range n = [].
Proof. intros Hn. unfold range. now replace (Z.to_nat n) with 0%nat by lia. Qed.

Lemma length_range (n : Z) : length (range n) = Z.to_nat n.
Proof. unfold range. now rewrite length_map, length_seq. Qed.

Lemma nth_range (n : Z) (i : nat) (d : Z) :
  (i < Z.to_nat n)%nat -> nth i (range n) d = Z.of_nat i.
Proof.
  intros Hi. unfold range.
  rewrite nth_indep with (d' := Z.of_nat 0) by (rewrite length_map, length_seq; lia).
  rewrite map_nth, seq_nth by lia. reflexivity.
Qed.

Lemma slice_bound_id (n i : Z) : (0 <= i <= n)%Z -> slice_bound n i = i.
Proof.
  intros Hi. unfold slice_bound.
  destruct (Z.ltb_spec i 0); lia.
Qed.

Lemma py_slice_in_bounds {A : Type} (l : list A) (lo hi : Z) :
  (0 <= lo <= hi)%Z -> (hi <= len l)%Z ->
  py_slice l lo hi = firstn (Z.to_nat (hi - lo)) (skipn (Z.to_nat lo) l).
Proof.
  intros Hlo Hhi. unfold py_slice.
  now rewrite !slice_bound_id by lia.
Qed.

Lemma length_py_slice {A : Type} (l : list A) (lo hi : Z) :
  (0 <= lo <= hi)%Z -> (hi <= len l)%Z ->
  len (py_slice l lo hi) = (hi - lo)%Z.
Proof.
  intros Hlo Hhi. rewrite py_slice_in_bounds by assumption.
  unfold len in *. rewrite length_firstn, length_skipn. lia.
Qed.

Lemma nth_py_slice {A : Type} (l : list A) (lo hi : Z) (j : nat) (d : A) :
  (0 <= lo <= hi)%Z -> (hi <= len l)%Z -> (Z.of_nat j < hi - lo)%Z ->
  nth j (py_slice l lo hi) d = nth (Z.to_nat lo + j) l d.
Proof.
  intros Hlo Hhi Hj. rewrite py_slice_in_bounds by assumption.
  rewrite nth_firstn.
  destruct (Nat.ltb_spec j (Z.to_nat (hi - lo))); [| lia].
  now rewrite nth_skipn.
Qed.

(** The number of frames: the least [k] with [len <= k * frame_size]. *)
Lemma ceil_div_bounds (n fs : Z) :
  (0 < fs)%Z ->
  let k := (- ((- n) / fs))%Z in
  ((k - 1) * fs < n <= k * fs)%Z.
Proof.
  intros Hfs k. subst k.
  pose proof (Z.mul_div_le (- n) fs Hfs).
  pose proof (Z.mul_succ_div_gt (- n) fs Hfs).
  nia.
Qed.

(** A zero sample rate gives a zero product, or none. *)
Lemma frame_size_zero_rate (fd : float) (fs : Z) :
  frame_size 0 fd = Ok fs -> fs = 0%Z.
Proof.
  unfold frame_size, double_product.
  change (double_of_int 0) with (@Ok spec_float (S754_zero false)). cbn [bind].
  destruct (Prim2SF fd) as [s | s | | s m e]; cbn; congruence.
Qed.

Lemma frame_size_sr_nonzero (sr : Z) (fd : float) (fs : Z) :
  frame_size sr fd = Ok fs -> fs <> 0%Z -> sr <> 0%Z.
Proof.
  intros Hfs Hne ->. apply Hne. now apply (frame_size_zero_rate fd).
Qed.

Lemma frame_at_bounds (audio : list R) (fs i : Z) :
  (0 < fs)%Z -> (0 <= i < n_frames_of audio fs)%Z ->
  (0 <= i * fs < Z.min ((i + 1) * fs) (len audio))%Z /\
  (Z.min ((i + 1) * fs) (len audio) <= len audio)%Z.
Proof.
  intros Hfs Hi. pose proof (ceil_div_bounds (len audio) fs Hfs) as Hk.
  cbv zeta in Hk. unfold n_frames_of in Hi. nia.
Qed.

(** With a positive frame size every iteration appends one entry. *)
Lemma compute_loudness_frames (audio : list R) (sr : Z) (fd : float) (fs : Z) :
  frame_size sr fd = Ok fs -> (0 < fs)%Z ->
  compute_loudness audio sr fd =
    Ok (map (fun i => IZR (i * fs) / IZR sr) (range (n_frames_of audio fs)),
        map (fun i => db_of_rms (rms_of (frame_at audio fs i)))
          (range (n_frames_of audio fs))).
Proof.
  intros Hsize Hfs. unfold compute_loudness. rewrite Hsize. cbn [bind].
  assert (Hsr : sr <> 0%Z) by (apply (frame_size_sr_nonzero sr fd fs); [exact Hsize | lia]).
  unfold true_div at 1.
  destruct (Z.eqb_spec fs 0) as [? | _]; [lia |]. cbn [bind].
  rewrite int_ceil_div by lia. fold (n_frames_of audio fs).
  rewrite for_each_append with
    (f := fun i => db_of_rms (rms_of (frame_at audio fs i)))
    (g := fun i => IZR (i * fs) / IZR sr).
  - reflexivity.
  - intros i l t Hi. apply in_range in Hi.
    destruct (frame_at_bounds audio fs i Hfs Hi) as [Hlo Hhi].
    unfold frame_body. fold (frame_at audio fs i).
    assert (Hlen : len (frame_at audio fs i)
                   = (Z.min ((i + 1) * fs) (len audio) - i * fs)%Z).
    { unfold frame_at. apply length_py_slice; lia. }
    destruct (Z.eqb_spec (len (frame_at audio fs i)) 0) as [H0 | _]; [lia |].
    unfold true_div. destruct (Z.eqb_spec sr 0) as [? | _]; [contradiction |].
    reflexivity.
Qed.

Lemma int_of_float_trunc (x : R) :
  (0 <= x -> IZR (int_of_float x) <= x < IZR (int_of_float x) + 1) /\
  (x <= 0 -> IZR (int_of_float x) - 1 < x <= IZR (int_of_float x)).
Proof.
  unfold int_of_float. destruct (Rle_dec 0 x) as [Hx | Hx].
  - pose proof (base_Int_part x) as [H1 H2]. split; intros H.
    + lra.
    + assert (x = 0) by lra. subst x.
      change 0 with (IZR 0). rewrite Int_part_IZR. lra.
  - pose proof (base_Int_part (- x)) as [H1 H2]. rewrite opp_IZR.
    split; intros H; lra.
Qed.

Lemma int_of_float_nonneg (x : R) (z : Z) :
  0 <= x -> IZR z <= x < IZR z + 1 -> int_of_float x = z.
Proof.
  intros Hx Hz. unfold int_of_float.
  destruct (Rle_dec 0 x); [| contradiction].
  symmetry. apply Int_part_spec. lra.
Qed.

Lemma int_of_float_neg (x : R) (z : Z) :
  x < 0 -> IZR z - 1 < x <= IZR z -> int_of_float x = z.
Proof.
  intros Hx Hz. unfold int_of_float.
  destruct (Rle_dec 0 x); [lra |].
  assert (Int_part (- x) = (- z)%Z) as ->; [| lia].
  symmetry. apply Int_part_spec. rewrite opp_IZR. lra.
Qed.

(** [int] of a binary64 number truncates its value toward zero. *)
Lemma int_of_double_trunc (x : spec_float) (z : Z) :
  int_of_double x = Ok z ->
  (0 <= float_value x -> IZR z <= float_value x < IZR z + 1) /\
  (float_value x <= 0 -> IZR z - 1 < float_value x <= IZR z).
Proof.
  destruct x as [s | s | | s m e]; cbn [int_of_double float_value];
    try discriminate.
  - intros [= <-]. lra.
  - destruct (Z.leb_spec 0 e) as [He | He].
    + set (a := (Zpos m * 2 ^ e)%Z). intros Hz.
      assert (Hz' : z = if s then (- a)%Z else a) by (cbv zeta in Hz; congruence).
      subst z. destruct s; rewrite ?opp_IZR; lra.
    + assert (Hpow : (0 < 2 ^ (- e))%Z) by (apply Z.pow_pos_nonneg; lia).
      set (d := (2 ^ (- e))%Z) in *. set (a := (Zpos m / d)%Z). intros Hz.
      assert (Hz' : z = if s then (- a)%Z else a) by (cbv zeta in Hz; congruence).
      subst z.
      assert (Hd : d <> 0%Z) by lia.
      pose proof (Int_part_div (Zpos m) d Hd) as Hint.
      pose proof (base_Int_part (IZR (Zpos m) / IZR d)) as [H1 H2].
      rewrite Hint in H1, H2. fold a in H1, H2.
      assert (H0 : (0 <= a)%Z) by (apply Z.div_pos; lia).
      apply IZR_le in H0.
      destruct s; rewrite ?opp_IZR; lra.
Qed.

Lemma compute_loudness_no_frame_size (audio : list R) (sr : Z) (fd : float)
    (cause : exn) :
  frame_size sr fd = Raise cause ->
  compute_loudness audio sr fd = Raise (RuntimeError cause).
Proof. intros Hfs. unfold compute_loudness. now rewrite Hfs. Qed.

Lemma compute_loudness_zero (audio : list R) (sr : Z) (fd : float) :
  frame_size sr fd = Ok 0%Z ->
  compute_loudness audio sr fd = Raise (RuntimeError ZeroDivisionError).
Proof. intros Hfs. unfold compute_loudness. now rewrite Hfs. Qed.

Lemma compute_loudness_negative (audio : list R) (sr : Z) (fd : float) (fs : Z) :
  frame_size sr fd = Ok fs -> (fs < 0)%Z ->
  compute_loudness audio sr fd = Ok ([], []).
Proof.
  intros Hsize Hfs. unfold compute_loudness. rewrite Hsize. cbn [bind].
  unfold true_div. destruct (Z.eqb_spec fs 0) as [? | _]; [lia |]. cbn [bind].
  rewrite int_ceil_div by lia.
  rewrite range_nonpos; [reflexivity |].
  assert (0 <= - len audio / fs)%Z; [| lia].
  rewrite <- (Z.opp_involutive fs), Z.div_opp_opp by lia.
  apply Z.div_pos; unfold len; lia.
Qed.

(** The cases of [compute_loudness] on the frame size. *)
Lemma compute_loudness_cases (audio : list R) (sr : Z) (fd : float) :
  (exists cause,
     frame_size sr fd = Raise cause /\
     compute_loudness audio sr fd = Raise (RuntimeError cause)) \/
  (frame_size sr fd = Ok 0%Z /\
   compute_loudness audio sr fd = Raise (RuntimeError ZeroDivisionError)) \/
  (exists fs,
     frame_size sr fd = Ok fs /\ (fs < 0)%Z /\
     compute_loudness audio sr fd = Ok ([], [])) \/
  (exists fs,
     frame_size sr fd = Ok fs /\ (0 < fs)%Z /\
     compute_loudness audio sr fd =
       Ok (map (fun i => IZR (i * fs) / IZR sr) (range (n_frames_of audio fs)),
           map (fun i => db_of_rms (rms_of (frame_at audio fs i)))
             (range (n_frames_of audio fs)))).
Proof.
  destruct (frame_size sr fd) as [fs | cause] eqn:Hsize.
  - destruct (Z.lt_trichotomy fs 0) as [H | [-> | H]].
    + right; right; left. exists fs. split; [reflexivity |]. split; [exact H |].
      now apply (compute_loudness_negative audio sr fd fs).
    + right; left. split; [reflexivity | now apply compute_loudness_zero].
    + right; right; right. exists fs. split; [reflexivity |]. split; [exact H |].
      now apply compute_loudness_frames.
  - left. exists cause. split; [reflexivity |].
    now apply compute_loudness_no_frame_size.
Qed.

(** A result of [compute_loudness], from its frame size. *)
Lemma compute_loudness_returns (audio : list R) (sr : Z) (fd : float)
    (times loudness_db : list R) :
  compute_loudness audio sr fd = Ok (times, loudness_db) ->
  exists fs,
    frame_size sr fd = Ok fs /\
    (((fs < 0)%Z /\ times = [] /\ loudness_db = []) \/
     ((0 < fs)%Z /\
      times = map (fun i => IZR (i * fs) / IZR sr) (range (n_frames_of audio fs)) /\
      loudness_db = map (fun i => db_of_rms (rms_of (frame_at audio fs i)))
                      (range (n_frames_of audio fs)))).
Proof.
  intros Hrun.
  destruct (compute_loudness_cases audio sr fd)
    as [(c & _ & H) | [[_ H] | [(fs & Hsize & Hfs & H) | (fs & Hsize & Hfs & H)]]];
    rewrite H in Hrun; try discriminate; injection Hrun as <- <-;
    exists fs; (split; [exact Hsize |]); [left | right]; auto.
Qed.

(** The exceptions of [int(sr * frame_duration)]. *)
Lemma frame_size_raises (sr : Z) (fd : float) (cause : exn) :
  frame_size sr fd = Raise cause ->
  (double_of_int sr = Raise OverflowError /\ cause = OverflowError) \/
  (double_product sr fd = Ok S754_nan /\ cause = ValueError) \/
  (exists s, double_product sr fd = Ok (S754_infinity s) /\ cause = OverflowError).
Proof.
  unfold frame_size, double_product, double_of_int.
  destruct (binary_normalize prec emax sr 0 false) as [s | s | | s m e];
    cbn [bind]; try (intros [= <-]; left; split; reflexivity).
  all: match goal with
       | |- context [SFmul prec emax ?x ?y] =>
           destruct (SFmul prec emax x y) as [s' | s' | | s' m' e']
       end;
    cbn [int_of_double]; intros [= <-]; try discriminate;
    try (right; left; split; reflexivity);
    try (right; right; eexists; split; reflexivity).
Qed.

(** *** Frame size (claim C2) *)

Lemma frame_size_10_017 : frame_size 10 0.17 = Ok 1%Z.
Proof. vm_compute. reflexivity. Qed.

Lemma frame_size_100_029 : frame_size 100 0.29 = Ok 28%Z.
Proof. vm_compute. reflexivity. Qed.

(** The product [3 * 0.3333333333333333] is rounded to [1.0]. *)
Lemma frame_size_3_third : frame_size 3 0.3333333333333333 = Ok 1%Z.
Proof. vm_compute. reflexivity. Qed.

Lemma frame_size_1_m1 : frame_size 1 (-1) = Ok (-1)%Z.
Proof. vm_compute. reflexivity. Qed.

Lemma frame_size_1_1 : frame_size 1 1 = Ok 1%Z.
Proof. vm_compute. reflexivity. Qed.

(** The value of the product [10 * 0.17] in binary64. *)
Lemma product_10_017 :
  double_product 10 0.17 = Ok (S754_finite false 7656119366529844 (-52)).
Proof. vm_compute. reflexivity. Qed.

(** C2, counterexample: at [sr = 10], [frame_duration = 0.17] the product is
    [1.7000000000000002] and the frame size is [1], not the product rounded;
    at [sr = 100], [frame_duration = 0.29] the product is just below [29]
    and the frame size is [28]; at [sr = 1], [frame_duration = -1] the
    frame size is below [1] and the function returns an empty series instead
    of failing; and a frame duration that is not a number makes it fail
    although no frame size is computed. *)
Lemma C2_counterexample :
  frame_size 10 0.17 = Ok 1%Z /\
  (exists product,
     double_product 10 0.17 = Ok product /\
     ~ rounds_to (float_value product) 1) /\
  frame_size 100 0.29 = Ok 28%Z /\
  frame_size 1 (-1) = Ok (-1)%Z /\
  compute_loudness [0] 1 (-1) = Ok ([], []) /\
  compute_loudness [0] 8000 nan = Raise (RuntimeError ValueError).
Proof.
  split; [apply frame_size_10_017 |]. split.
  { eexists. split; [apply product_10_017 |].
    unfold rounds_to.
    change (float_value (S754_finite false 7656119366529844 (-52)))
      with (IZR 7656119366529844 / IZR 4503599627370496).
    unfold Rabs. destruct (Rcase_abs _); lra. }
  split; [apply frame_size_100_029 |].
  split; [apply frame_size_1_m1 |]. split.
  - apply (compute_loudness_negative [0] 1 (-1) (-1)); [apply frame_size_1_m1 | lia].
  - apply compute_loudness_no_frame_size. vm_compute. reflexivity.
Qed.

(** C2, as amended: the frame size is the binary64 product
    [sr * frame_duration] truncated toward zero, not rounded;
    [compute_loudness] fails, always with a [RuntimeError], in two cases
    only: the frame size is [0] (the division by zero is wrapped), or
    [int] refuses the product ([ValueError] for nan, [OverflowError] for an
    infinite product or a sample rate too large for a float); it returns a
    series for every frame size of at least [1], and the empty series for
    every negative frame size. *)
Theorem frame_size_truncates (audio : list R) (sr : Z) (fd : float) :
  (forall fs, frame_size sr fd = Ok fs ->
     exists product,
       double_product sr fd = Ok product /\
       (0 <= float_value product ->
        IZR fs <= float_value product < IZR fs + 1) /\
       (float_value product <= 0 ->
        IZR fs - 1 < float_value product <= IZR fs)) /\
  (forall cause, frame_size sr fd = Raise cause ->
     (double_of_int sr = Raise OverflowError /\ cause = OverflowError) \/
     (double_product sr fd = Ok S754_nan /\ cause = ValueError) \/
     (exists s, double_product sr fd = Ok (S754_infinity s) /\
                cause = OverflowError)) /\
  (forall err, compute_loudness audio sr fd = Raise err <->
     (frame_size sr fd = Ok 0%Z /\ err = RuntimeError ZeroDivisionError) \/
     (exists cause, frame_size sr fd = Raise cause /\ err = RuntimeError cause)) /\
  (forall fs, frame_size sr fd = Ok fs -> (1 <= fs)%Z ->
     exists times loudness_db,
       compute_loudness audio sr fd = Ok (times, loudness_db)) /\
  (forall fs, frame_size sr fd = Ok fs -> (fs < 0)%Z ->
     compute_loudness audio sr fd = Ok ([], [])).
Proof.
  split; [| split; [| split; [| split]]].
  - intros fs Hsize. unfold frame_size in Hsize.
    destruct (double_product sr fd) as [product | cause]; [| discriminate].
    cbn [bind] in Hsize. exists product. split; [reflexivity |].
    now apply int_of_double_trunc.
  - apply frame_size_raises.
  - intros err. split.
    + intros Hraise.
      destruct (compute_loudness_cases audio sr fd)
        as [(c & Hc & H) | [[H0 H] | [(fs & _ & _ & H) | (fs & _ & _ & H)]]];
        rewrite H in Hraise; try discriminate; injection Hraise as <-.
      * right. exists c. auto.
      * left. auto.
    + intros [[Hsize ->] | (cause & Hsize & ->)].
      * now apply compute_loudness_zero.
      * now apply compute_loudness_no_frame_size.
  - intros fs Hsize Hfs.
    rewrite (compute_loudness_frames audio sr fd fs) by (auto; lia). eauto.
  - intros fs. apply compute_loudness_negative.
Qed.

Lemma frame_size_truncates_witness :
  exists times loudness_db, compute_loudness [0] 1 1 = Ok (times, loudness_db).
Proof.
  destruct (frame_size_truncates [0] 1 1) as (_ & _ & _ & H & _).
  apply (H 1%Z); [apply frame_size_1_1 | lia].
Defined.

Lemma n_frames_of_nonneg (audio : list R) (fs : Z) :
  (0 < fs)%Z -> (0 <= n_frames_of audio fs)%Z.
Proof.
  intros Hfs. pose proof (ceil_div_bounds (len audio) fs Hfs) as Hk.
  cbv zeta in Hk. unfold n_frames_of. unfold len in *. nia.
Qed.

Lemma nth_map_range (f : Z -> R) (n : Z) (i : nat) :
  (i < Z.to_nat n)%nat -> nth i (map f (range n)) 0 = f (Z.of_nat i).
Proof.
  intros Hi.
  rewrite nth_indep with (d' := f 0%Z) by (rewrite length_map, length_range; lia).
  rewrite map_nth. f_equal. now apply nth_range.
Qed.

(** *** Number and extent of the frames (claim C4) *)

(** C4: with a frame size of at least [1], [compute_loudness] returns as
    many time stamps as loudness values, their number is the ceiling of
    [len(audio) / frame_size], no frame is empty, and frame [i] holds the
    samples of index [i * frame_size] up to
    [min((i + 1) * frame_size, len(audio))]. *)
Theorem frame_count (audio : list R) (sr : Z) (fd : float) (fs : Z) :
  frame_size sr fd = Ok fs -> (1 <= fs)%Z ->
  exists times loudness_db,
    compute_loudness audio sr fd = Ok (times, loudness_db) /\
    length times = length loudness_db /\
    ((len times - 1) * fs < len audio <= len times * fs)%Z /\
    forall i : nat, (i < length times)%nat ->
      let start := (Z.of_nat i * fs)%Z in
      let stop := Z.min ((Z.of_nat i + 1) * fs) (len audio) in
      let frame := frame_at audio fs (Z.of_nat i) in
      (0 <= start < stop)%Z /\
      len frame = (stop - start)%Z /\
      (forall j : nat, (Z.of_nat j < stop - start)%Z ->
         nth j frame 0 = nth (Z.to_nat start + j) audio 0) /\
      nth i loudness_db 0 = db_of_rms (rms_of frame).
Proof.
  intros Hsize Hfs.
  rewrite (compute_loudness_frames audio sr fd fs) by (auto; lia).
  assert (Hpos : (0 < fs)%Z) by lia.
  pose proof (n_frames_of_nonneg audio fs Hpos) as Hk.
  do 2 eexists. split; [reflexivity |].
  split; [now rewrite !length_map |].
  assert (Hlen : len (map (fun i => IZR (i * fs) / IZR sr)
                        (range (n_frames_of audio fs))) = n_frames_of audio fs).
  { unfold len. rewrite length_map, length_range. lia. }
  split.
  - rewrite Hlen. apply (ceil_div_bounds (len audio) fs Hpos).
  - intros i Hi. rewrite length_map, length_range in Hi.
    assert (Hi' : (0 <= Z.of_nat i < n_frames_of audio fs)%Z) by lia.
    destruct (frame_at_bounds audio fs (Z.of_nat i) Hpos Hi') as [Hlo Hhi].
    cbv zeta. split; [exact Hlo |]. split; [| split].
    + unfold frame_at. apply length_py_slice; lia.
    + intros j Hj. unfold frame_at. apply nth_py_slice; lia.
    + now rewrite nth_map_range.
Qed.

Lemma frame_size_1_2 : frame_size 1 2 = Ok 2%Z.
Proof. vm_compute. reflexivity. Qed.

Lemma frame_count_witness :
  exists times loudness_db,
    compute_loudness [0; 0; 0] 1 2 = Ok (times, loudness_db) /\
    length times = length loudness_db /\
    ((len times - 1) * 2 < len [0; 0; 0] <= len times * 2)%Z.
Proof.
  assert (Hfs : (1 <= 2)%Z) by lia.
  destruct (frame_count [0; 0; 0] 1 2 2 frame_size_1_2 Hfs)
    as (times & db & H1 & H2 & H3 & _).
  exists times, db. auto.
Defined.

(** *** Time stamps (claim C5) *)






(** ** Reals: comparisons, root mean square, logarithm *)

Lemma Rltb_true (x y : R) : x < y -> Rltb x y = true.
Proof. intros H. unfold Rltb. destruct (Rlt_dec x y); [reflexivity | contradiction]. Qed.

Lemma Rltb_false (x y : R) : ~ x < y -> Rltb x y = false.
Proof. intros H. unfold Rltb. destruct (Rlt_dec x y); [contradiction | reflexivity]. Qed.

Lemma Rleb_true (x y : R) : x <= y -> Rleb x y = true.
Proof. intros H. unfold Rleb. destruct (Rle_dec x y); [reflexivity | contradiction]. Qed.

Lemma Rleb_false (x y : R) : ~ x <= y -> Rleb x y = false.
Proof. intros H. unfold Rleb. destruct (Rle_dec x y); [contradiction | reflexivity]. Qed.

Lemma In_firstn {A : Type} (n : nat) (l : list A) (x : A) :
  In x (firstn n l) -> In x l.
Proof.
  intros H. rewrite <- (firstn_skipn n l). apply in_or_app. now left.
Qed.

Lemma In_skipn {A : Type} (n : nat) (l : list A) (x : A) :
  In x (skipn n l) -> In x l.
Proof.
  intros H. rewrite <- (firstn_skipn n l). apply in_or_app. now right.
Qed.

Lemma Forall_py_slice {A : Type} (P : A -> Prop) (l : list A) (lo hi : Z) :
  Forall P l -> Forall P (py_slice l lo hi).
Proof.
  intros H. unfold py_slice. apply Forall_forall. intros x Hx.
  eapply Forall_forall; [exact H |].
  eapply In_skipn, In_firstn, Hx.
Qed.

Lemma Rsum_squares_bound (b : R) (l : list R) :
  Forall (fun x => Rabs x <= b) l ->
  0 <= Rsum (map (fun x => x ^ 2) l) <= INR (length l) * b ^ 2.
Proof.
  induction 1 as [| x l Hx Hl IH].
  - simpl. lra.
  - cbn [map Rsum fold_right]. fold (Rsum (map (fun x => x ^ 2) l)).
    change (length (x :: l)) with (S (length l)). rewrite S_INR.
    assert (0 <= x ^ 2 <= b ^ 2).
    { unfold Rabs in Hx. destruct (Rcase_abs x); simpl; nra. }
    lra.
Qed.

Lemma rms_of_bound (b : R) (frame : list R) :
  0 <= b -> Forall (fun x => Rabs x <= b) frame -> 0 <= rms_of frame <= b.
Proof.
  intros Hb Hall. unfold rms_of, np_mean. rewrite length_map.
  split; [apply sqrt_pos |].
  rewrite <- (sqrt_Rsqr b Hb). apply sqrt_le_1_alt.
  pose proof (Rsum_squares_bound b frame Hall) as [H0 H1].
  destruct frame as [| x frame].
  - simpl. unfold Rsqr. nra.
  - assert (Hn : 0 < INR (length (x :: frame))) by (apply lt_0_INR; simpl; lia).
    set (n := INR (length (x :: frame))) in *.
    set (s := Rsum (map (fun x => x ^ 2) (x :: frame))) in *.
    apply Rmult_le_reg_r with n; [exact Hn |].
    replace (s / n * n) with s by (field; lra).
    unfold Rsqr. replace (b * b * n) with (n * b ^ 2) by ring. exact H1.
Qed.

Lemma rms_of_zeros (frame : list R) :
  Forall (fun x => x = 0) frame -> rms_of frame = 0.
Proof.
  intros Hall.
  assert (Hb : Forall (fun x => Rabs x <= 0) frame).
  { revert Hall. apply Forall_impl. intros x ->. rewrite Rabs_R0. lra. }
  pose proof (rms_of_bound 0 frame (Rle_refl 0) Hb). lra.
Qed.

Lemma ln_10_pos : 0 < ln 10.
Proof. rewrite <- ln_1. apply ln_increasing; lra. Qed.

Lemma log10_lt (x y : R) : 0 < x -> x < y -> log10 x < log10 y.
Proof.
  intros Hx Hxy. unfold log10, Rdiv.
  apply Rmult_lt_compat_r; [apply Rinv_0_lt_compat, ln_10_pos |].
  now apply ln_increasing.
Qed.

Lemma log10_le (x y : R) : 0 < x -> x <= y -> log10 x <= log10 y.
Proof.
  intros Hx [Hlt | ->]; [left; now apply log10_lt | right; reflexivity].
Qed.

Lemma log10_1 : log10 1 = 0.
Proof. unfold log10. rewrite ln_1. unfold Rdiv. apply Rmult_0_l. Qed.

Lemma log10_inv_pow (n : nat) : log10 (/ 10 ^ n) = - INR n.
Proof.
  unfold log10.
  rewrite ln_Rinv by (apply pow_lt; lra).
  rewrite ln_pow by lra. field. apply Rgt_not_eq, ln_10_pos.
Qed.

Lemma db_floor_bound : 20 * log10 (1e-10 / 2 ^ 15) <= -100.
Proof.
  assert (H : log10 (1e-10 / 2 ^ 15) <= log10 (/ 10 ^ 5)) by (apply log10_le; lra).
  rewrite log10_inv_pow in H.
  replace (INR 5) with 5 in H by (simpl; lra). lra.
Qed.

Lemma db_of_rms_cases (rms : R) :
  (rms < 1e-10 /\ db_of_rms rms = -100) \/
  (1e-10 <= rms /\ db_of_rms rms = 20 * log10 (rms / 2 ^ 15)).
Proof.
  unfold db_of_rms. destruct (Rlt_le_dec rms 1e-10) as [H | H].
  - left. now rewrite Rltb_true.
  - right. rewrite Rltb_false by lra. auto.
Qed.

(** A value at or above the silence threshold is below the floor exactly
    when the rms is below [2^15 * 1e-5 = 0.32768]. *)
Lemma db_of_rms_below_floor (rms : R) :
  1e-10 <= rms ->
  (rms < 0.32768 -> db_of_rms rms < -100) /\
  (0.32768 <= rms -> -100 <= db_of_rms rms).
Proof.
  intros Hge.
  destruct (db_of_rms_cases rms) as [[Hlt _] | [_ ->]]; [lra |].
  pose proof (log10_inv_pow 5) as H5.
  replace (INR 5) with 5 in H5 by (simpl; lra).
  split; intros Hrms.
  - assert (H : log10 (rms / 2 ^ 15) < log10 (/ 10 ^ 5)) by (apply log10_lt; lra).
    lra.
  - assert (H : log10 (/ 10 ^ 5) <= log10 (rms / 2 ^ 15)) by (apply log10_le; lra).
    lra.
Qed.

(** *** Decibel conversion (claim C3) *)

(** C3: the value of every frame is [-100] when its rms is below [1e-10]
    and [20 * log10(rms / 2^15)] otherwise; a waveform of zeros gives
    [-100] for every frame. *)
Theorem db_conversion (audio : list R) (sr : Z) (fd : float)
    (times loudness_db : list R) :
  compute_loudness audio sr fd = Ok (times, loudness_db) ->
  exists fs,
    frame_size sr fd = Ok fs /\
    (forall i : nat, (i < length loudness_db)%nat ->
       let rms := rms_of (frame_at audio fs (Z.of_nat i)) in
       (rms < 1e-10 -> nth i loudness_db 0 = -100) /\
       (~ rms < 1e-10 -> nth i loudness_db 0 = 20 * log10 (rms / 2 ^ 15))) /\
    (Forall (fun x => x = 0) audio -> Forall (fun v => v = -100) loudness_db).
Proof.
  intros Hrun.
  destruct (compute_loudness_returns _ _ _ _ _ Hrun)
    as (fs & Hsize & [(Hfs & -> & ->) | (Hfs & -> & ->)]);
    exists fs; (split; [exact Hsize |]).
  - split; [simpl; intros; lia | constructor].
  - split.
    + intros i Hi. rewrite length_map, length_range in Hi.
      rewrite nth_map_range by exact Hi. cbv zeta.
      destruct (db_of_rms_cases (rms_of (frame_at audio fs (Z.of_nat i))))
        as [[Hlt ->] | [Hge ->]]; split; intros; lra || reflexivity.
    + intros Hzero. apply Forall_forall. intros v Hv.
      apply in_map_iff in Hv as [i [<- _]].
      unfold frame_at. rewrite rms_of_zeros by now apply Forall_py_slice.
      unfold db_of_rms. rewrite Rltb_true by lra. reflexivity.
Qed.

Lemma db_conversion_witness :
  Forall (fun v => v = -100)
    [db_of_rms (rms_of (frame_at [0; 0] 1 0)); db_of_rms (rms_of (frame_at [0; 0] 1 1))].
Proof.
  assert (Hrun : compute_loudness [0; 0] 1 1
                 = Ok ([IZR (0 * 1) / IZR 1; IZR (1 * 1) / IZR 1],
                       [db_of_rms (rms_of (frame_at [0; 0] 1 0));
                        db_of_rms (rms_of (frame_at [0; 0] 1 1))])).
  { rewrite (compute_loudness_frames _ _ _ 1 frame_size_1_1) by lia. reflexivity. }
  destruct (db_conversion _ _ _ _ _ Hrun) as (fs & _ & _ & H).
  apply H. repeat constructor.
Defined.

(** *** Range of the loudness values (claim C1) *)

Lemma db_of_rms_range (rms : R) :
  0 <= rms <= 2 ^ 15 ->
  20 * log10 (1e-10 / 2 ^ 15) <= db_of_rms rms <= 0.
Proof.
  intros Hrms. pose proof db_floor_bound as Hfloor.
  destruct (db_of_rms_cases rms) as [[_ ->] | [Hge ->]]; [lra |].
  assert (Hlo : log10 (1e-10 / 2 ^ 15) <= log10 (rms / 2 ^ 15)).
  { apply log10_le; [lra |].
    apply Rmult_le_compat_r; [| exact Hge].
    left. apply Rinv_0_lt_compat. lra. }
  assert (Hhi : log10 (rms / 2 ^ 15) <= log10 1).
  { apply log10_le.
    - apply Rdiv_lt_0_compat; lra.
    - apply Rmult_le_reg_r with (2 ^ 15); [lra |].
      replace (rms / 2 ^ 15 * 2 ^ 15) with rms by (field; lra). lra. }
  rewrite log10_1 in Hhi. lra.
Qed.

Lemma rms_sixteen_samples : rms_of (1 :: repeat 0 15) = 1 / 4.
Proof.
  unfold rms_of, np_mean. rewrite length_map.
  rewrite <- (sqrt_Rsqr (1 / 4)) by lra. f_equal.
  unfold Rsqr. simpl. lra.
Qed.

Lemma sixteen_samples_quiet :
  db_of_rms (rms_of (1 :: repeat 0 15)) < -100.
Proof.
  rewrite rms_sixteen_samples.
  apply (db_of_rms_below_floor (1 / 4)); lra.
Qed.

Lemma frame_size_16_1 : frame_size 16 1 = Ok 16%Z.
Proof. vm_compute. reflexivity. Qed.

Lemma sixteen_samples_bounded :
  Forall (fun x => Rabs x <= 2 ^ 15) (1 :: repeat 0 15).
Proof.
  simpl. repeat constructor; try (rewrite Rabs_R0; lra). rewrite Rabs_R1. lra.
Qed.

Lemma sixteen_samples_run :
  compute_loudness (1 :: repeat 0 15) 16 1
  = Ok ([IZR (0 * 16) / IZR 16],
        [db_of_rms (rms_of (frame_at (1 :: repeat 0 15) 16 0))]).
Proof.
  rewrite (compute_loudness_frames _ _ _ 16 frame_size_16_1) by lia. reflexivity.
Qed.

(** C1, counterexample: sixteen samples within the 16-bit range, one of them
    [1] and the others [0], analysed as one frame, give a value below
    [-100]. *)
Lemma C1_counterexample :
  Forall (fun x => Rabs x <= 2 ^ 15) (1 :: repeat 0 15) /\
  exists times v,
    compute_loudness (1 :: repeat 0 15) 16 1 = Ok (times, [v]) /\ v < -100.
Proof.
  split; [apply sixteen_samples_bounded |].
  rewrite sixteen_samples_run.
  do 2 eexists. split; [reflexivity |].
  apply sixteen_samples_quiet.
Qed.

(** C1, as amended: the value of frame [i] is the floor [-100] when the rms
    of that frame is below [1e-10], and [20 * log10(rms / 2^15)] of that
    frame's rms otherwise; it is below [-100] for every frame with
    [1e-10 <= rms < 0.32768], and only for those; with samples of absolute
    value at most [2^15] it lies between [20 * log10(1e-10 / 2^15)] and
    [0]. *)
Theorem loudness_range (audio : list R) (sr : Z) (fd : float)
    (times loudness_db : list R) :
  compute_loudness audio sr fd = Ok (times, loudness_db) ->
  exists fs,
    frame_size sr fd = Ok fs /\
    forall i : nat, (i < length loudness_db)%nat ->
      let rms := rms_of (frame_at audio fs (Z.of_nat i)) in
      let v := nth i loudness_db 0 in
      ((rms < 1e-10 /\ v = -100) \/
       (1e-10 <= rms /\ v = 20 * log10 (rms / 2 ^ 15))) /\
      (v < -100 <-> 1e-10 <= rms < 0.32768) /\
      (Forall (fun x => Rabs x <= 2 ^ 15) audio ->
       20 * log10 (1e-10 / 2 ^ 15) <= v <= 0).
Proof.
  intros Hrun.
  destruct (compute_loudness_returns _ _ _ _ _ Hrun)
    as (fs & Hsize & [(Hfs & -> & ->) | (Hfs & -> & ->)]);
    exists fs; (split; [exact Hsize |]).
  - simpl. intros; lia.
  - intros i Hi. rewrite length_map, length_range in Hi.
    rewrite nth_map_range by exact Hi. cbv zeta.
    set (frame := frame_at audio fs (Z.of_nat i)).
    split; [apply db_of_rms_cases |]. split.
    + destruct (db_of_rms_cases (rms_of frame)) as [[Hlt Hv] | [Hge _]].
      * rewrite Hv. split; intros; lra.
      * destruct (db_of_rms_below_floor (rms_of frame) Hge) as [Hbelow Habove].
        split.
        -- intros Hv. split; [exact Hge |].
           destruct (Rlt_le_dec (rms_of frame) 0.32768) as [H | H]; [exact H |].
           specialize (Habove H). lra.
        -- intros [_ H]. now apply Hbelow.
    + intros Hbound. apply db_of_rms_range. apply rms_of_bound; [lra |].
      unfold frame, frame_at. now apply Forall_py_slice.
Qed.

Lemma loudness_range_witness :
  exists fs,
    frame_size 16 1 = Ok fs /\
    let rms := rms_of (frame_at (1 :: repeat 0 15) fs 0) in
    let v := db_of_rms (rms_of (frame_at (1 :: repeat 0 15) 16 0)) in
    ((rms < 1e-10 /\ v = -100) \/
     (1e-10 <= rms /\ v = 20 * log10 (rms / 2 ^ 15))) /\
    (v < -100 <-> 1e-10 <= rms < 0.32768) /\
    (Forall (fun x => Rabs x <= 2 ^ 15) (1 :: repeat 0 15) ->
     20 * log10 (1e-10 / 2 ^ 15) <= v <= 0).
Proof.
  destruct (loudness_range _ _ _ _ _ sixteen_samples_run) as (fs & Hsize & H).
  exists fs. split; [exact Hsize |].
  apply (H 0%nat). simpl. lia.
Defined.

(** ** The convolution of [moving_average] *)

Lemma len_repeat {A : Type} (x : A) (n : nat) : len (repeat x n) = Z.of_nat n.
Proof. unfold len. now rewrite repeat_length. Qed.

Lemma rev_repeat_eq {A : Type} (x : A) (n : nat) : rev (repeat x n) = repeat x n.
Proof.
  induction n as [| n IH]; [reflexivity |].
  simpl. rewrite IH. clear IH.
  induction n as [| n IH]; [reflexivity |].
  simpl. now rewrite IH.
Qed.

Lemma map_repeat_eq {A B : Type} (f : A -> B) (x : A) (n : nat) :
  map f (repeat x n) = repeat (f x) n.
Proof. induction n as [| n IH]; [reflexivity |]. simpl. now rewrite IH. Qed.

Lemma get_repeat (c : R) (n : nat) (j : Z) :
  (0 <= j < Z.of_nat n)%Z -> get (repeat c n) j = c.
Proof.
  intros Hj. unfold get. destruct (Z.ltb_spec j 0); [lia |].
  apply nth_repeat_lt. lia.
Qed.

Lemma Rsum_map_scale {A : Type} (f : A -> R) (c : R) (l : list A) :
  Rsum (map (fun j => f j * c) l) = Rsum (map f l) * c.
Proof.
  induction l as [| a l IH]; simpl.
  - ring.
  - fold (Rsum (map (fun j => f j * c) l)). fold (Rsum (map f l)).
    rewrite IH. ring.
Qed.

Lemma map_get_range (a : list R) : map (get a) (range (len a)) = a.
Proof.
  apply nth_ext with (d := 0) (d' := 0).
  - rewrite length_map, length_range. unfold len. lia.
  - intros i Hi. rewrite length_map, length_range in Hi.
    rewrite nth_map_range by exact Hi.
    unfold get. destruct (Z.ltb_spec (Z.of_nat i) 0); [lia |].
    now rewrite Nat2Z.id.
Qed.

(** The smoothing kernel [np.ones(window_size) / window_size]. *)
Lemma kernel_eq (ws : Z) :
  map (fun x => x / IZR ws) (repeat 1 (Z.to_nat ws)) = repeat (1 / IZR ws) (Z.to_nat ws).
Proof. exact (map_repeat_eq (fun x => x / IZR ws) 1 (Z.to_nat ws)). Qed.

Lemma moving_average_short_window (data : list R) (ws : Z) :
  (1 <= ws <= len data)%Z ->
  moving_average data ws =
    Ok (map (fun k =>
               Rsum (map (fun j => get data (k - ws / 2 + j)) (range ws)) / IZR ws)
          (range (len data))).
Proof.
  intros Hws. unfold moving_average, np_ones.
  destruct (Z.ltb_spec ws 0); [lia |]. cbn [bind].
  rewrite kernel_eq. unfold np_convolve_same.
  rewrite len_repeat, Z2Nat.id by lia.
  destruct (Z.ltb_spec (len data) ws); [lia |].
  destruct (Z.eqb_spec (len data) 0); [lia |].
  rewrite len_repeat, Z2Nat.id by lia.
  destruct (Z.eqb_spec ws 0); [lia |].
  f_equal. unfold correlate_same.
  rewrite rev_repeat_eq, len_repeat, Z2Nat.id by lia.
  apply map_ext. intros k.
  transitivity
    (Rsum (map (fun j => get data (k - ws / 2 + j) * (1 / IZR ws)) (range ws))).
  - f_equal. apply map_ext_in. intros j Hj. apply in_range in Hj.
    rewrite get_repeat by lia. reflexivity.
  - rewrite Rsum_map_scale. unfold Rdiv. ring.
Qed.

Lemma moving_average_long_window (data : list R) (ws : Z) :
  (1 <= len data < ws)%Z ->
  moving_average data ws =
    Ok (correlate_same (repeat (1 / IZR ws) (Z.to_nat ws)) (rev data)).
Proof.
  intros Hws. unfold moving_average, np_ones.
  destruct (Z.ltb_spec ws 0); [lia |]. cbn [bind].
  rewrite kernel_eq. unfold np_convolve_same.
  rewrite len_repeat, Z2Nat.id by lia.
  destruct (Z.ltb_spec (len data) ws); [| lia].
  rewrite len_repeat, Z2Nat.id by lia.
  destruct (Z.eqb_spec ws 0); [lia |].
  destruct (Z.eqb_spec (len data) 0); [lia |].
  reflexivity.
Qed.

Lemma len_correlate_same (a v : list R) : len (correlate_same a v) = len a.
Proof.
  unfold correlate_same, len. rewrite length_map, length_range. lia.
Qed.

(** The length of the smoothed series: [max(M, N)] as for every
    [mode='same'] convolution. *)
Lemma moving_average_length (data : list R) (ws : Z) :
  (1 <= len data)%Z -> (1 <= ws)%Z ->
  exists out, moving_average data ws = Ok out /\ len out = Z.max (len data) ws.
Proof.
  intros Hdata Hws. destruct (Z_lt_le_dec (len data) ws) as [Hlt | Hle].
  - rewrite moving_average_long_window by lia. eexists. split; [reflexivity |].
    rewrite len_correlate_same, len_repeat. lia.
  - rewrite moving_average_short_window by lia. eexists. split; [reflexivity |].
    unfold len at 1. rewrite length_map, length_range. unfold len in *. lia.
Qed.


(** ** Window sums *)

Lemma Rsum_app (l l' : list R) : Rsum (l ++ l') = Rsum l + Rsum l'.
Proof.
  induction l as [| x l IH]; simpl.
  - unfold Rsum. lra.
  - fold (Rsum (l ++ l')). fold (Rsum l). rewrite IH. lra.
Qed.

Lemma Rsum_firstn_S (m : nat) (l : list R) :
  Rsum (firstn (S m) l) = Rsum (firstn m l) + nth m l 0.
Proof.
  revert l. induction m as [| m IH]; intros [| x l].
  - simpl. lra.
  - simpl. lra.
  - simpl. lra.
  - change (Rsum (firstn (S (S m)) (x :: l))) with (x + Rsum (firstn (S m) l)).
    change (Rsum (firstn (S m) (x :: l))) with (x + Rsum (firstn m l)).
    rewrite IH. simpl. lra.
Qed.

Lemma range_succ (n : nat) :
  range (Z.of_nat (S n)) = range (Z.of_nat n) ++ [Z.of_nat n].
Proof.
  unfold range. rewrite !Nat2Z.id, seq_S, map_app. reflexivity.
Qed.

(** The window sum of a correlation reads the array from [lo] on, with zeros
    outside; it is the sum of the entries that exist. *)
Lemma window_sum_firstn (a : list R) (lo : Z) (n : nat) :
  Rsum (map (fun j => get a (lo + j)) (range (Z.of_nat n))) =
  Rsum (firstn (Z.to_nat (lo + Z.of_nat n) - Z.to_nat lo) (skipn (Z.to_nat lo) a)).
Proof.
  induction n as [| n IH].
  - replace (Z.to_nat (lo + Z.of_nat 0) - Z.to_nat lo)%nat with 0%nat by lia.
    reflexivity.
  - rewrite range_succ, map_app, Rsum_app, IH. cbn [map Rsum fold_right].
    rewrite Rplus_0_r.
    destruct (Z_lt_le_dec (lo + Z.of_nat n) 0) as [Hneg | Hpos].
    + unfold get. destruct (Z.ltb_spec (lo + Z.of_nat n) 0); [| lia].
      replace (Z.to_nat (lo + Z.of_nat (S n)) - Z.to_nat lo)%nat with 0%nat by lia.
      replace (Z.to_nat (lo + Z.of_nat n) - Z.to_nat lo)%nat with 0%nat by lia.
      simpl. lra.
    + replace (Z.to_nat (lo + Z.of_nat (S n)) - Z.to_nat lo)%nat
        with (S (Z.to_nat (lo + Z.of_nat n) - Z.to_nat lo)) by lia.
      rewrite Rsum_firstn_S, nth_skipn. f_equal.
      unfold get. destruct (Z.ltb_spec (lo + Z.of_nat n) 0); [lia |].
      f_equal. lia.
Qed.

Lemma window_sum_slice (a : list R) (i w : Z) :
  (0 <= w)%Z -> (0 <= i < len a)%Z ->
  Rsum (map (fun j => get a (i - w + j)) (range (2 * w + 1))) =
  Rsum (py_slice a (Z.max 0 (i - w)) (i + w + 1)).
Proof.
  intros Hw Hi.
  replace (2 * w + 1)%Z with (Z.of_nat (Z.to_nat (2 * w + 1))) by lia.
  rewrite window_sum_firstn. f_equal.
  unfold py_slice, slice_bound.
  destruct (Z.ltb_spec (Z.max 0 (i - w)) 0); [lia |].
  destruct (Z.ltb_spec (i + w + 1) 0); [lia |].
  replace (Z.to_nat (Z.max 0 (Z.min (len a) (Z.max 0 (i - w)))))
    with (Z.to_nat (i - w)) by lia.
  set (l := skipn (Z.to_nat (i - w)) a).
  assert (Hl : length l = (length a - Z.to_nat (i - w))%nat)
    by (unfold l; apply length_skipn).
  unfold len in *.
  destruct (Z_lt_le_dec (i + w + 1) (Z.of_nat (length a))) as [Hin | Hout].
  - f_equal. lia.
  - rewrite !firstn_all2 by lia. reflexivity.
Qed.

(** *** Smoothing (claim C6) *)

(** C6, counterexample: a series of one entry smoothed with a window of
    three has three entries; and the empty series is refused even with a
    window of one. *)
Lemma C6_counterexample :
  exists out,
    moving_average [1] 3 = Ok out /\ length out = 3%nat /\
    length out <> length [1] /\
    moving_average [] 1 = Raise ValueError.
Proof.
  eexists. split; [| split; [| split]].
  - rewrite moving_average_long_window by (unfold len; simpl; lia). reflexivity.
  - reflexivity.
  - simpl. lia.
  - reflexivity.
Qed.

(** C6, as amended: for a window [2 * w + 1] no longer than the series, the
    result has the length of the series; entry [i] is the sum of the window
    centred on [i], read with zeros outside the series, divided by the
    window size, which is the sum of [series[max(0, i - w) : i + w + 1]]
    divided by the window size; and a window of one returns the series. *)
Theorem moving_average_centered (data : list R) (w : Z) :
  (0 <= w)%Z -> (2 * w + 1 <= len data)%Z ->
  exists out,
    moving_average data (2 * w + 1) = Ok out /\
    length out = length data /\
    (forall i : nat, (i < length data)%nat ->
       nth i out 0 =
         Rsum (map (fun j => get data (Z.of_nat i - w + j)) (range (2 * w + 1)))
         / IZR (2 * w + 1) /\
       nth i out 0 =
         Rsum (py_slice data (Z.max 0 (Z.of_nat i - w)) (Z.of_nat i + w + 1))
         / IZR (2 * w + 1)) /\
    (w = 0%Z -> out = data).
Proof.
  intros Hw Hlen. rewrite moving_average_short_window by lia.
  assert (Hhalf : ((2 * w + 1) / 2 = w)%Z).
  { symmetry. apply Z.div_unique with (r := 1%Z); lia. }
  rewrite Hhalf. eexists. split; [reflexivity |]. split; [| split].
  - rewrite length_map, length_range. unfold len. lia.
  - intros i Hi. rewrite nth_map_range by (unfold len; lia).
    split; [reflexivity |].
    rewrite window_sum_slice by (unfold len; lia). reflexivity.
  - intros ->. change (2 * 0 + 1)%Z with 1%Z.
    rewrite <- (map_get_range data) at 2.
    apply map_ext. intros k. simpl.
    replace (k - 0 + 0)%Z with k by lia. field.
Qed.

Lemma moving_average_centered_witness :
  exists out,
    moving_average [3; 6; 9] (2 * 1 + 1) = Ok out /\
    nth 0 out 0 = 3.
Proof.
  destruct (moving_average_centered [3; 6; 9] 1) as (out & Hrun & _ & Hnth & _).
  - lia.
  - unfold len. simpl. lia.
  - exists out. split; [exact Hrun |].
    destruct (Hnth 0%nat ltac:(simpl; lia)) as [-> _].
    simpl. unfold get. simpl. lra.
Defined.

(** ** The highlight condition *)

Lemma Rleb_iff (x y : R) : Rleb x y = true <-> x <= y.
Proof. unfold Rleb. destruct (Rle_dec x y); split; auto; discriminate. Qed.

Lemma Rltb_iff (x y : R) : Rltb x y = true <-> x < y.
Proof. unfold Rltb. destruct (Rlt_dec x y); split; auto; discriminate. Qed.

Lemma np_and_same_length (a b : list bool) :
  length a = length b ->
  np_and a b = Ok (map (fun p => fst p && snd p) (combine a b)).
Proof. intros H. unfold np_and. now rewrite H, Nat.eqb_refl. Qed.

Lemma and_combine_map {A B : Type} (f : A -> bool) (g : B -> bool)
    (l : list A) (l' : list B) :
  map (fun p => fst p && snd p) (combine (map f l) (map g l')) =
  map (fun p => f (fst p) && g (snd p)) (combine l l').
Proof.
  revert l'. induction l as [| x l IH]; intros [| y l']; simpl; try reflexivity.
  now rewrite IH.
Qed.

Lemma and_combine_self {A : Type} (f g : A -> bool) (l : list A) :
  map (fun p => fst p && snd p) (combine (map f l) (map g l)) =
  map (fun x => f x && g x) l.
Proof. induction l as [| x l IH]; simpl; [reflexivity | now rewrite IH]. Qed.

Lemma highlight_condition_same_length (times loudness : list R)
    (s e thr : R) (above : bool) :
  length times = length loudness ->
  highlight_condition times loudness s e thr above =
    Ok (map (fun p => mask_entry s e thr above (fst p) (snd p))
          (combine times loudness)).
Proof.
  intros Hlen. unfold highlight_condition.
  rewrite np_and_same_length by now rewrite !length_map.
  cbn [bind]. rewrite and_combine_self.
  rewrite np_and_same_length by (destruct above; now rewrite !length_map).
  f_equal. unfold mask_entry.
  destruct above.
  - exact (and_combine_map (fun x => Rleb s x && Rleb x e) (fun v => Rltb thr v)
             times loudness).
  - exact (and_combine_map (fun x => Rleb s x && Rleb x e) (fun v => Rltb v thr)
             times loudness).
Qed.

Lemma nth_map_combine {A B C : Type} (f : A * B -> C) (l : list A) (l' : list B)
    (i : nat) (a : A) (b : B) (c : C) :
  length l = length l' -> (i < length l)%nat ->
  nth i (map f (combine l l')) c = f (nth i l a, nth i l' b).
Proof.
  intros Hlen Hi.
  rewrite nth_indep with (d' := f (a, b))
    by (rewrite length_map, length_combine; lia).
  rewrite map_nth. now rewrite combine_nth.
Qed.

(** *** Highlight mask (claim C7) *)

(** C7: for [times] and [loudness] of equal length the condition is a mask
    of that length, true at [i] exactly when [times[i]] lies in
    [[start_time, end_time]] and [loudness[i]] is beyond the threshold on the
    side [above] selects; it is false everywhere when no [times[i]] lies in
    the range. *)
Theorem highlight_mask_spec (times loudness : list R) (s e thr : R) (above : bool) :
  length times = length loudness ->
  exists mask,
    highlight_condition times loudness s e thr above = Ok mask /\
    length mask = length times /\
    (forall i : nat, (i < length times)%nat ->
       nth i mask false = true <->
       s <= nth i times 0 /\ nth i times 0 <= e /\
       (if above then thr < nth i loudness 0 else nth i loudness 0 < thr)) /\
    ((forall i : nat, (i < length times)%nat ->
        ~ (s <= nth i times 0 <= e)) ->
     Forall (fun b => b = false) mask).
Proof.
  intros Hlen. rewrite highlight_condition_same_length by exact Hlen.
  eexists. split; [reflexivity |].
  assert (Hentry : forall i : nat, (i < length times)%nat ->
            nth i (map (fun p => mask_entry s e thr above (fst p) (snd p))
                     (combine times loudness)) false
            = mask_entry s e thr above (nth i times 0) (nth i loudness 0)).
  { intros i Hi. now rewrite nth_map_combine with (a := 0) (b := 0). }
  assert (Hsize : length (map (fun p => mask_entry s e thr above (fst p) (snd p))
                            (combine times loudness)) = length times).
  { rewrite length_map, length_combine. lia. }
  split; [exact Hsize |]. split.
  - intros i Hi. rewrite (Hentry i Hi). unfold mask_entry.
    rewrite !andb_true_iff, !Rleb_iff.
    destruct above; rewrite Rltb_iff; tauto.
  - intros Hout. apply Forall_forall. intros b Hb.
    apply (In_nth _ _ false) in Hb as [i [Hi <-]].
    rewrite Hsize in Hi. rewrite (Hentry i Hi).
    specialize (Hout i Hi). unfold mask_entry.
    destruct (Rle_dec s (nth i times 0)) as [H1 | H1];
      [| now rewrite (Rleb_false _ _ H1)].
    destruct (Rle_dec (nth i times 0) e) as [H2 | H2];
      [tauto | rewrite (Rleb_false _ _ H2)].
    now rewrite andb_false_r.
Qed.

Lemma highlight_mask_spec_witness :
  exists mask,
    highlight_condition [0; 1; 2] [-30; -10; -40] 0 1 (-20) false = Ok mask /\
    length mask = 3%nat /\
    nth 0 mask false = true.
Proof.
  destruct (highlight_mask_spec [0; 1; 2] [-30; -10; -40] 0 1 (-20) false eq_refl)
    as (mask & Hrun & Hsize & Hiff & _).
  exists mask. split; [exact Hrun |]. split; [exact Hsize |].
  apply (Hiff 0%nat); simpl; [lia | lra].
Defined.

(** ** The loop over the highlights *)

Lemma add_children_nil (ax : axes) : add_children ax [] = ax.
Proof. destruct ax. unfold add_children. simpl. now rewrite app_nil_r. Qed.

Lemma add_children_app (ax : axes) (l l' : list artist) :
  add_children (add_children ax l) l' = add_children ax (l ++ l').
Proof. unfold add_children. simpl. now rewrite app_assoc. Qed.

Lemma add_stdout_nil (w : world) : add_stdout w [] = w.
Proof. destruct w. unfold add_stdout. simpl. now rewrite app_nil_r. Qed.

Lemma add_stdout_app (w : world) (l l' : list message) :
  add_stdout (add_stdout w l) l' = add_stdout w (l ++ l').
Proof. unfold add_stdout. simpl. now rewrite app_assoc. Qed.

Lemma highlight_audio_section_axes (E : externals) (ax : axes)
    (times loudness : list R) (h : highlight) :
  highlight_audio_section E ax times loudness h =
    match highlight_audio_section E empty_axes times loudness h with
    | Ok ax' => Ok (add_children ax (children ax'))
    | Raise err => Raise err
    end.
Proof.
  unfold highlight_audio_section.
  destruct (highlight_condition _ _ _ _ _ _) as [condition | err]; cbn [bind wrap_runtime];
    [| reflexivity].
  destruct (fill_between_error _ _ _ _ _ _ _); reflexivity.
Qed.

Lemma highlight_each_run (E : externals) (times loudness : list R)
    (highlights : list highlight) (ax : axes) (w : world) :
  highlight_each E times loudness highlights ax w =
    (add_stdout w (highlight_warnings E times loudness highlights),
     Ok (add_children ax (highlight_overlays E times loudness highlights))).
Proof.
  revert ax w. induction highlights as [| h rest IH]; intros ax w.
  - simpl. unfold ret. now rewrite add_stdout_nil, add_children_nil.
  - cbn [highlight_each highlight_warnings highlight_overlays flat_map].
    unfold bindM at 1, try_except, lift.
    rewrite highlight_audio_section_axes.
    destruct (highlight_audio_section E empty_axes times loudness h) as [ax' | err].
    + rewrite IH. fold (highlight_overlays E times loudness rest).
      fold (highlight_warnings E times loudness rest).
      now rewrite add_children_app.
    + unfold bindM, print, ret. rewrite IH.
      fold (highlight_overlays E times loudness rest).
      fold (highlight_warnings E times loudness rest).
      f_equal. unfold add_stdout. simpl. now rewrite <- app_assoc.
Qed.

(** ** [plot_loudness], case by case *)

Lemma plot_loudness_mismatch (E : externals) (times loudness : list R)
    (save_path : string) (highlights : option (list highlight)) (w : world) :
  length times <> length loudness ->
  plot_loudness E times loudness save_path highlights w =
    (w, Raise (RuntimeError ValueError)).
Proof.
  intros Hlen. unfold plot_loudness, try_except, bindM at 1, lift, ax_plot.
  apply Nat.eqb_neq in Hlen. rewrite Hlen. reflexivity.
Qed.

Lemma plot_loudness_empty (E : externals) (save_path : string)
    (highlights : option (list highlight)) (w : world) :
  plot_loudness E [] [] save_path highlights w =
    (add_stdout w (highlight_warnings E [] [] (highlights_of highlights)),
     Raise (RuntimeError IndexError)).
Proof.
  unfold plot_loudness, try_except, bindM at 1, lift, ax_plot.
  cbn [length Nat.eqb]. unfold bindM at 1.
  assert (Hloop : forall ax,
            match highlights with
            | Some (h :: rest) => highlight_each E [] [] (h :: rest) ax
            | _ => ret ax
            end w
            = highlight_each E [] [] (highlights_of highlights) ax w).
  { intros ax. destruct highlights as [[| h rest] |]; reflexivity. }
  rewrite Hloop, highlight_each_run.
  reflexivity.
Qed.

Lemma plot_loudness_run (E : externals) (times loudness : list R)
    (save_path : string) (highlights : option (list highlight)) (w : world) :
  length times = length loudness -> times <> [] ->
  plot_loudness E times loudness save_path highlights w =
    let w1 :=
      add_stdout w (highlight_warnings E times loudness (highlights_of highlights)) in
    let chart := rendered_chart E times loudness (highlights_of highlights) in
    if String.eqb save_path "" then (w1, Ok tt)
    else
      match savefig_error E save_path with
      | None =>
          ({| files := write_file (files w1) (savefig_path E save_path)
                         (ChartFile chart);
              stdout := stdout w1 |}, Ok tt)
      | Some err =>
          ({| files := fail_write E (savefig_path E save_path) (files w1);
              stdout := stdout w1 ++ [Error_saving_figure save_path err] |}, Ok tt)
      end.
Proof.
  intros Hlen Hne. unfold plot_loudness, try_except, bindM at 1, lift, ax_plot.
  rewrite Hlen, Nat.eqb_refl. unfold bindM at 1.
  assert (Hloop : forall ax,
            match highlights with
            | Some (h :: rest) => highlight_each E times loudness (h :: rest) ax
            | _ => ret ax
            end w
            = highlight_each E times loudness (highlights_of highlights) ax w).
  { intros ax. destruct highlights as [[| h rest] |]; reflexivity. }
  rewrite Hloop, highlight_each_run.
  destruct times as [| t times]; [contradiction |].
  unfold bindM, py_last. cbv zeta.
  destruct (String.eqb save_path "").
  - reflexivity.
  - unfold try_finally, savefig, print, ret.
    destruct (savefig_error E save_path) as [err |].
    + reflexivity.
    + unfold rendered_chart, add_child, add_children, empty_axes. simpl.
      rewrite <- !app_assoc. reflexivity.
Qed.

(** *** A failing highlight is skipped (claim C8) *)

Lemma plot_loudness_result (E : externals) (times loudness : list R)
    (save_path : string) (highlights : option (list highlight)) (w : world) :
  snd (plot_loudness E times loudness save_path highlights w) =
    if negb (length times =? length loudness)%nat then Raise (RuntimeError ValueError)
    else match times with
         | [] => Raise (RuntimeError IndexError)
         | _ :: _ => Ok tt
         end.
Proof.
  destruct (Nat.eqb_spec (length times) (length loudness)) as [Hlen | Hlen]; cbn [negb].
  - destruct times as [| t times].
    + destruct loudness; [| discriminate]. now rewrite plot_loudness_empty.
    + rewrite plot_loudness_run by (auto; discriminate). cbv zeta.
      destruct (String.eqb save_path ""); [reflexivity |].
      destruct (savefig_error E save_path); reflexivity.
  - now rewrite plot_loudness_mismatch.
Qed.

(** C8: the loop over the highlights never raises: it prints one warning per
    failing specification, draws the overlay of every other one, and goes
    through the whole list; the outcome of [plot_loudness] is the same as
    without highlights; and when the chart is saved it holds the loudness
    curve and the overlays of the specifications that did not fail. *)
Theorem failing_highlight_is_skipped (E : externals) (times loudness : list R)
    (highlights : list highlight) (save_path : string) (ax : axes) (w : world) :
  highlight_each E times loudness highlights ax w =
    ({| files := files w;
        stdout := stdout w ++ highlight_warnings E times loudness highlights |},
     Ok {| children := children ax ++ highlight_overlays E times loudness highlights;
           xlim := xlim ax; ylim := ylim ax; legend := legend ax |}) /\
  (forall h, In h highlights ->
     match highlight_audio_section E empty_axes times loudness h with
     | Raise err =>
         In (Warning_failed_to_highlight h err)
            (highlight_warnings E times loudness highlights)
     | Ok ax' =>
         incl (children ax') (highlight_overlays E times loudness highlights)
     end) /\
  snd (plot_loudness E times loudness save_path (Some highlights) w) =
    snd (plot_loudness E times loudness save_path None w) /\
  (length times = length loudness -> times <> [] ->
   String.eqb save_path "" = false -> savefig_error E save_path = None ->
   exists w' chart,
     plot_loudness E times loudness save_path (Some highlights) w = (w', Ok tt) /\
     stdout w' = stdout w ++ highlight_warnings E times loudness highlights /\
     files w' (savefig_path E save_path) = Some (ChartFile chart) /\
     In (Curve times loudness "Loudness in dB") (children chart) /\
     incl (highlight_overlays E times loudness highlights) (children chart)).
Proof.
  split; [apply highlight_each_run |]. split; [| split].
  - intros h Hh.
    destruct (highlight_audio_section E empty_axes times loudness h)
      as [ax' | err] eqn:Hrun.
    + intros a Ha. apply in_flat_map. exists h. split; [exact Hh |].
      now rewrite Hrun.
    + apply in_flat_map. exists h. split; [exact Hh |].
      rewrite Hrun. now left.
  - now rewrite !plot_loudness_result.
  - intros Hlen Hne Hpath Hsave.
    rewrite plot_loudness_run by assumption. cbv zeta.
    rewrite Hpath, Hsave. do 2 eexists. split; [reflexivity |].
    split; [reflexivity |]. split; [| split].
    + cbn [files]. unfold write_file. now rewrite String.eqb_refl.
    + simpl. now left.
    + intros a Ha. unfold rendered_chart. cbn [children highlights_of].
      apply in_or_app. right. apply in_or_app. now left.
Qed.

Lemma failing_highlight_is_skipped_witness :
  exists w' chart,
    plot_loudness example_externals [0; 1] [-30; -10] "out.png"
      (Some example_highlights) stale_world = (w', Ok tt) /\
    files w' "out.png"%string = Some (ChartFile chart) /\
    In (Curve [0; 1] [-30; -10] "Loudness in dB") (children chart).
Proof.
  destruct (failing_highlight_is_skipped example_externals [0; 1] [-30; -10]
              example_highlights "out.png" empty_axes stale_world)
    as (_ & _ & _ & H).
  destruct H as (w' & chart & Hrun & _ & Hfile & Hcurve & _);
    [reflexivity | discriminate | reflexivity | reflexivity |].
  exists w', chart. auto.
Defined.

(** *** An empty series cannot be rendered (claim C10) *)

(** C10: with an empty [times], [plot_loudness] raises a [RuntimeError] and
    writes no file; for an empty series the wrapped exception is the
    [IndexError] of [times[-1]]. *)
Theorem empty_series_is_not_rendered (E : externals) (loudness : list R)
    (save_path : string) (highlights : option (list highlight)) (w : world) :
  exists w',
    plot_loudness E [] loudness save_path highlights w =
      (w', Raise (RuntimeError (match loudness with
                                | [] => IndexError
                                | _ :: _ => ValueError
                                end))) /\
    files w' = files w /\
    py_last [] = Raise IndexError.
Proof.
  destruct loudness as [| v loudness].
  - rewrite plot_loudness_empty. eexists. split; [reflexivity |]. split; reflexivity.
  - rewrite plot_loudness_mismatch by discriminate.
    eexists. split; [reflexivity |]. split; reflexivity.
Qed.

(** *** Cleanup of the temporary audio file (claim C9) *)

Lemma try_except_print (body : M unit) (msg : exn -> message) (w : world) :
  exists wb, try_except body (fun err => print (msg err)) w = (wb, Ok tt).
Proof.
  unfold try_except. destruct (body w) as [w1 [[] | err]].
  - now exists w1.
  - unfold print. eauto.
Qed.

Lemma plot_loudness_remove_ok (E : externals) (times loudness : list R)
    (save_path : string) (highlights : option (list highlight)) (w : world) :
  plot_loudness (with_remove_ok E) times loudness save_path highlights w =
  plot_loudness E times loudness save_path highlights w.
Proof.
  destruct (Nat.eq_dec (length times) (length loudness)) as [Hlen | Hlen].
  - destruct times as [| t times].
    + destruct loudness; [| discriminate]. now rewrite !plot_loudness_empty.
    + rewrite !plot_loudness_run by (auto; discriminate). reflexivity.
  - now rewrite !plot_loudness_mismatch.
Qed.

Lemma bindM_ext {A B : Type} (m m' : M A) (k k' : A -> M B) (w : world) :
  m w = m' w -> (forall a w1, k a w1 = k' a w1) -> bindM m k w = bindM m' k' w.
Proof.
  intros Hm Hk. unfold bindM. rewrite Hm.
  destruct (m' w) as [w1 [a | err]]; [apply Hk | reflexivity].
Qed.

Lemma try_except_ext {A : Type} (body body' : M A) (handler : exn -> M A) (w : world) :
  body w = body' w -> try_except body handler w = try_except body' handler w.
Proof. intros H. unfold try_except. now rewrite H. Qed.

(** The [finally] block of [main], from the world [wb] the [try] leaves. *)
Lemma cleanup_run (E : externals) (wb : world) :
  (present <~ os_path_exists AUDIO_TEMP_PATH ;;
   if (present : bool)
   then try_except (os_remove E AUDIO_TEMP_PATH)
          (fun err => print (Error_removing_temp_audio err))
   else ret tt) wb =
  match files wb AUDIO_TEMP_PATH with
  | None => (wb, Ok tt)
  | Some _ =>
      match remove_error E AUDIO_TEMP_PATH with
      | None =>
          ({| files := delete_file (files wb) AUDIO_TEMP_PATH;
              stdout := stdout wb |}, Ok tt)
      | Some err =>
          ({| files := files wb;
              stdout := stdout wb ++ [Error_removing_temp_audio err] |}, Ok tt)
      end
  end.
Proof.
  unfold bindM, os_path_exists, try_except, os_remove, print, ret.
  destruct (files wb AUDIO_TEMP_PATH) as [f |] eqn:Hfile; [| reflexivity].
  cbv beta iota. rewrite Hfile.
  destruct (remove_error E AUDIO_TEMP_PATH); reflexivity.
Qed.

(** C9: [main] always returns normally; when [os.remove] does not fail the
    temporary audio file is absent afterwards, whatever happened before;
    and when [os.remove] fails, the run differs from the run in which it
    succeeds only by the file left in place and one more line printed after
    all the others. *)
Theorem main_cleans_up (E : externals)
    (video_path output_graph_path graph_name : string)
    (highlights : list highlight) (w : world) :
  exists w',
    main E video_path output_graph_path graph_name highlights w = (w', Ok tt) /\
    (remove_error E AUDIO_TEMP_PATH = None -> files w' AUDIO_TEMP_PATH = None) /\
    (forall err, remove_error E AUDIO_TEMP_PATH = Some err ->
       exists w0,
         main (with_remove_ok E) video_path output_graph_path graph_name highlights w
           = (w0, Ok tt) /\
         (forall p, p <> AUDIO_TEMP_PATH -> files w' p = files w0 p) /\
         stdout w' =
           stdout w0 ++
           match files w' AUDIO_TEMP_PATH with
           | Some _ => [Error_removing_temp_audio err]
           | None => []
           end).
Proof.
  unfold main. cbv zeta. unfold try_finally.
  change (path_join (with_remove_ok E)) with (path_join E).
  set (save_path := path_join E output_graph_path graph_name).
  match goal with
  | |- context [try_except ?b _ w] =>
      destruct (try_except_print b Error_in_main w) as [wb Hb];
      assert (Hb0 : try_except b (fun err => print (Error_in_main err)) w = (wb, Ok tt))
        by exact Hb
  end.
  assert (Hsame :
    try_except
      (extract_audio_from_video (with_remove_ok E) video_path AUDIO_TEMP_PATH ;;;
       sr_audio <~ read_audio AUDIO_TEMP_PATH ;;
       let '(sr, audio) := sr_audio in
       series <~ lift (compute_loudness audio sr FRAME_DURATION) ;;
       let '(times, loudness_db) := series in
       loudness_db_smooth <~ lift (moving_average loudness_db smooth_window) ;;
       plot_loudness (with_remove_ok E) times loudness_db_smooth save_path
         (Some highlights))
      (fun err => print (Error_in_main err)) w = (wb, Ok tt)).
  { rewrite <- Hb0. apply try_except_ext.
    apply bindM_ext; [reflexivity | intros [] w1].
    apply bindM_ext; [reflexivity | intros [sr audio] w2].
    apply bindM_ext; [reflexivity | intros [times loudness_db] w3].
    apply bindM_ext; [reflexivity | intros smooth w4].
    apply plot_loudness_remove_ok. }
  rewrite Hb0, Hsame, !cleanup_run.
  change (remove_error (with_remove_ok E) AUDIO_TEMP_PATH) with (@None exn).
  destruct (files wb AUDIO_TEMP_PATH) as [f |] eqn:Hfile.
  - destruct (remove_error E AUDIO_TEMP_PATH) as [err |] eqn:Hrm.
    + eexists. split; [reflexivity |]. split; [discriminate |].
      intros err' [= <-]. eexists. split; [reflexivity |]. split.
      * intros p Hp. cbn [files]. unfold delete_file.
        destruct (String.eqb_spec p AUDIO_TEMP_PATH); [contradiction | reflexivity].
      * cbn [files stdout]. now rewrite Hfile.
    + eexists. split; [reflexivity |]. split; [| discriminate].
      intros _. cbn [files]. unfold delete_file. now rewrite String.eqb_refl.
  - eexists. split; [reflexivity |]. split; [auto |].
    intros err Hrm. eexists. split; [reflexivity |]. split; [reflexivity |].
    rewrite Hfile. now rewrite app_nil_r.
Qed.

Lemma main_cleans_up_witness :
  exists w',
    main example_externals "video.mp4" "charts" "graph.png" example_highlights
      stale_world = (w', Ok tt) /\
    files w' AUDIO_TEMP_PATH = None.
Proof.
  destruct (main_cleans_up example_externals "video.mp4" "charts" "graph.png"
              example_highlights stale_world) as (w' & Hrun & Hgone & _).
  exists w'. split; [exact Hrun | apply Hgone; reflexivity].
Defined.

(** * Further properties *)

(** ** More on [compute_loudness] *)

Lemma len_map {A B : Type} (f : A -> B) (l : list A) : len (map f l) = len l.
Proof. unfold len. now rewrite length_map. Qed.

Lemma py_slice_map {A B : Type} (f : A -> B) (l : list A) (lo hi : Z) :
  py_slice (map f l) lo hi = map f (py_slice l lo hi).
Proof.
  unfold py_slice. rewrite len_map. now rewrite skipn_map, firstn_map.
Qed.

Lemma frame_at_map (f : R -> R) (audio : list R) (fs i : Z) :
  frame_at (map f audio) fs i = map f (frame_at audio fs i).
Proof. unfold frame_at. now rewrite len_map, py_slice_map. Qed.

Lemma n_frames_of_map (f : R -> R) (audio : list R) (fs : Z) :
  n_frames_of (map f audio) fs = n_frames_of audio fs.
Proof. unfold n_frames_of. now rewrite len_map. Qed.

Lemma frame_at_nonempty (audio : list R) (fs i : Z) :
  (0 < fs)%Z -> (0 <= i < n_frames_of audio fs)%Z ->
  (0 < len (frame_at audio fs i))%Z.
Proof.
  intros Hfs Hi. destruct (frame_at_bounds audio fs i Hfs Hi) as [Hlo Hhi].
  unfold frame_at. rewrite length_py_slice by lia. lia.
Qed.

Lemma Rsum_cons (x : R) (l : list R) : Rsum (x :: l) = x + Rsum l.
Proof. reflexivity. Qed.

Lemma Rsum_squares_scale (c : R) (frame : list R) :
  Rsum (map (fun x => x ^ 2) (map (Rmult c) frame))
  = c ^ 2 * Rsum (map (fun x => x ^ 2) frame).
Proof.
  induction frame as [| x frame IH]; cbn [map].
  - unfold Rsum. simpl. ring.
  - rewrite !Rsum_cons, IH. ring.
Qed.

Lemma Rsum_squares_nonneg (frame : list R) :
  0 <= Rsum (map (fun x => x ^ 2) frame).
Proof.
  induction frame as [| x frame IH]; cbn [map].
  - unfold Rsum. simpl. lra.
  - rewrite Rsum_cons. pose proof (pow2_ge_0 x). lra.
Qed.

Lemma np_mean_squares_nonneg (frame : list R) :
  0 <= np_mean (map (fun x => x ^ 2) frame).
Proof.
  unfold np_mean. rewrite length_map.
  pose proof (Rsum_squares_nonneg frame) as Hs.
  destruct frame as [| x frame].
  - simpl. lra.
  - apply Rmult_le_pos; [exact Hs |].
    left. apply Rinv_0_lt_compat, lt_0_INR. simpl. lia.
Qed.

(** The rms of a frame scales with the absolute value of the gain. *)
Lemma rms_of_scale (c : R) (frame : list R) :
  rms_of (map (Rmult c) frame) = Rabs c * rms_of frame.
Proof.
  unfold rms_of.
  assert (Hmean : np_mean (map (fun x => x ^ 2) (map (Rmult c) frame))
                  = (Rabs c)² * np_mean (map (fun x => x ^ 2) frame)).
  { unfold np_mean. rewrite !length_map, Rsum_squares_scale.
    rewrite <- Rsqr_abs. unfold Rsqr, Rdiv. ring. }
  rewrite Hmean, sqrt_mult_alt by apply Rle_0_sqr.
  now rewrite sqrt_Rsqr by apply Rabs_pos.
Qed.

Lemma log10_mult (x y : R) : 0 < x -> 0 < y -> log10 (x * y) = log10 x + log10 y.
Proof.
  intros Hx Hy. unfold log10. rewrite ln_mult by assumption.
  field. apply Rgt_not_eq, ln_10_pos.
Qed.

(** A gain that keeps a frame above the floor adds [20 * log10(gain)]. *)
Lemma db_of_rms_gain (c rms : R) :
  0 < c -> 1e-10 <= rms -> 1e-10 <= c * rms ->
  db_of_rms (c * rms) = db_of_rms rms + 20 * log10 c.
Proof.
  intros Hc Hrms Hscaled.
  destruct (db_of_rms_cases rms) as [[Hlt _] | [_ ->]]; [lra |].
  destruct (db_of_rms_cases (c * rms)) as [[Hlt _] | [_ ->]]; [lra |].
  replace (c * rms / 2 ^ 15) with (c * (rms / 2 ^ 15)) by (field; lra).
  rewrite log10_mult; [ring | exact Hc |].
  apply Rdiv_lt_0_compat; lra.
Qed.

(** X1: [compute_loudness] either returns two arrays of the same length,
    and then the frame size is not [0], or raises a [RuntimeError]; the
    exception it wraps is the [ZeroDivisionError] of a frame size [0], or
    the [ValueError] or [OverflowError] with which [int] refuses a product
    [sr * frame_duration] that is not a finite number; no other exception
    leaves it. *)
Theorem compute_loudness_outcome (audio : list R) (sr : Z) (fd : float) :
  match compute_loudness audio sr fd with
  | Ok (times, loudness_db) =>
      length times = length loudness_db /\
      exists fs, frame_size sr fd = Ok fs /\ fs <> 0%Z
  | Raise e =>
      (e = RuntimeError ZeroDivisionError /\ frame_size sr fd = Ok 0%Z) \/
      (exists cause,
         e = RuntimeError cause /\ frame_size sr fd = Raise cause /\
         (cause = ValueError \/ cause = OverflowError))
  end.
Proof.
  destruct (compute_loudness_cases audio sr fd)
    as [(c & Hc & ->) | [[H0 ->] | [(fs & Hsize & Hfs & ->) | (fs & Hsize & Hfs & ->)]]].
  - right. exists c. split; [reflexivity |]. split; [exact Hc |].
    destruct (frame_size_raises sr fd c Hc) as [[_ ->] | [[_ ->] | (s & _ & ->)]]; auto.
  - left. auto.
  - split; [reflexivity |]. exists fs. split; [exact Hsize | lia].
  - split; [now rewrite !length_map |]. exists fs. split; [exact Hsize | lia].
Qed.

(** X2: the branch [if len(frame) == 0: continue] is never taken: for a
    non-zero frame size every index the loop visits has a frame with at
    least one sample. *)
Theorem loop_never_skips (audio : list R) (fs i : Z) :
  fs <> 0%Z ->
  In i (range (int_of_float (np_ceil (IZR (len audio) / IZR fs)))) ->
  let start := (i * fs)%Z in
  let stop := Z.min ((i + 1) * fs) (len audio) in
  (len (py_slice audio start stop) =? 0)%Z = false.
Proof.
  intros Hfs Hi. cbv zeta. rewrite int_ceil_div in Hi by exact Hfs.
  fold (n_frames_of audio fs) in Hi. apply in_range in Hi.
  destruct (Z_lt_le_dec 0 fs) as [Hpos | Hneg].
  - pose proof (frame_at_nonempty audio fs i Hpos Hi) as H.
    unfold frame_at in H. apply Z.eqb_neq. lia.
  - exfalso. assert (Hlt : (fs < 0)%Z) by lia.
    assert (0 <= - len audio / fs)%Z; [| unfold n_frames_of in Hi; lia].
    rewrite <- (Z.opp_involutive fs), Z.div_opp_opp by lia.
    apply Z.div_pos; unfold len; lia.
Qed.

Lemma loop_never_skips_witness :
  (len (py_slice [1; 2; 3] (1 * 2) (Z.min ((1 + 1) * 2) (len [1; 2; 3]))) =? 0)%Z
  = false.
Proof.
  apply (loop_never_skips [1; 2; 3] 2 1).
  - lia.
  - rewrite int_ceil_div by lia. apply in_range.
    unfold len. simpl. lia.
Defined.

(** X3: for a positive sample rate every time stamp is the start of a frame
    inside the waveform, that is at least [0] and before [len(audio) / sr],
    and the first one is [0]. *)
Theorem times_within_duration (audio : list R) (sr : Z) (fd : float)
    (times loudness_db : list R) :
  (0 < sr)%Z ->
  compute_loudness audio sr fd = Ok (times, loudness_db) ->
  Forall (fun t => 0 <= t < IZR (len audio) / IZR sr) times /\
  (times <> [] -> nth 0 times 1 = 0).
Proof.
  intros Hsr Hrun. assert (HsrR : 0 < IZR sr) by now apply IZR_lt.
  destruct (compute_loudness_returns _ _ _ _ _ Hrun)
    as (fs & Hsize & [(Hfs & -> & ->) | (Hfs & -> & ->)]).
  - split; [constructor | congruence].
  - split.
    + apply Forall_forall. intros t Ht.
      apply in_map_iff in Ht as [i [<- Hi]]. apply in_range in Hi.
      destruct (frame_at_bounds audio fs i Hfs Hi) as [[H0 H1] _].
      assert (H2 : (i * fs < len audio)%Z) by lia.
      apply IZR_le in H0. apply IZR_lt in H2. split.
      * apply Rmult_le_pos; [exact H0 | left; now apply Rinv_0_lt_compat].
      * apply Rmult_lt_compat_r; [now apply Rinv_0_lt_compat | exact H2].
    + intros Hne.
      destruct (Z.to_nat (n_frames_of audio fs)) as [| k] eqn:Hk.
      * exfalso. apply Hne. unfold range. now rewrite Hk.
      * unfold range. rewrite Hk. simpl. unfold Rdiv. apply Rmult_0_l.
Qed.

Lemma times_within_duration_witness :
  Forall (fun t => 0 <= t < IZR (len [0; 0]) / IZR 1)
    [IZR (0 * 1) / IZR 1; IZR (1 * 1) / IZR 1].
Proof.
  assert (Hrun : compute_loudness [0; 0] 1 1
                 = Ok ([IZR (0 * 1) / IZR 1; IZR (1 * 1) / IZR 1],
                       [db_of_rms (rms_of (frame_at [0; 0] 1 0));
                        db_of_rms (rms_of (frame_at [0; 0] 1 1))])).
  { rewrite (compute_loudness_frames _ _ _ 1 frame_size_1_1) by lia. reflexivity. }
  assert (Hsr : (0 < 1)%Z) by lia.
  destruct (times_within_duration _ _ _ _ _ Hsr Hrun) as [H _]. exact H.
Defined.

(** X4: multiplying every sample by a positive gain leaves the time stamps
    as they are and adds [20 * log10(gain)] to the loudness of every frame
    that is above the floor before and after. *)
Theorem gain_shifts_loudness (audio : list R) (sr : Z) (fd : float) (c : R)
    (times loudness_db : list R) :
  0 < c ->
  compute_loudness audio sr fd = Ok (times, loudness_db) ->
  exists louder fs,
    compute_loudness (map (Rmult c) audio) sr fd = Ok (times, louder) /\
    length louder = length loudness_db /\
    frame_size sr fd = Ok fs /\
    forall i : nat, (i < length loudness_db)%nat ->
      let rms := rms_of (frame_at audio fs (Z.of_nat i)) in
      1e-10 <= rms -> 1e-10 <= c * rms ->
      nth i louder 0 = nth i loudness_db 0 + 20 * log10 c.
Proof.
  intros Hc Hrun.
  destruct (compute_loudness_returns _ _ _ _ _ Hrun)
    as (fs & Hsize & [(Hfs & -> & ->) | (Hfs & -> & ->)]).
  - rewrite (compute_loudness_negative _ sr fd fs) by assumption.
    exists [], fs. split; [reflexivity |]. split; [reflexivity |].
    split; [exact Hsize |]. simpl. intros; lia.
  - rewrite (compute_loudness_frames _ sr fd fs) by assumption.
    rewrite n_frames_of_map.
    eexists. exists fs. split; [reflexivity |]. split; [now rewrite !length_map |].
    split; [exact Hsize |].
    intros i Hi. rewrite length_map, length_range in Hi.
    rewrite !nth_map_range by exact Hi. cbv zeta. intros Hrms Hscaled.
    rewrite frame_at_map, rms_of_scale, (Rabs_right c) by lra.
    now apply db_of_rms_gain.
Qed.

Lemma gain_shifts_loudness_witness :
  exists louder,
    compute_loudness (map (Rmult 2) [1; 1]) 1 1
      = Ok ([IZR (0 * 1) / IZR 1; IZR (1 * 1) / IZR 1], louder) /\
    length louder = 2%nat.
Proof.
  assert (Hrun : compute_loudness [1; 1] 1 1
                 = Ok ([IZR (0 * 1) / IZR 1; IZR (1 * 1) / IZR 1],
                       [db_of_rms (rms_of (frame_at [1; 1] 1 0));
                        db_of_rms (rms_of (frame_at [1; 1] 1 1))])).
  { rewrite (compute_loudness_frames _ _ _ 1 frame_size_1_1) by lia. reflexivity. }
  assert (Hc : 0 < 2) by lra.
  destruct (gain_shifts_loudness _ _ _ 2 _ _ Hc Hrun)
    as (louder & fs & H1 & H2 & _).
  exists louder. split; [exact H1 | exact H2].
Defined.

(** X5: inverting the polarity of the waveform changes nothing. *)
Theorem polarity_is_irrelevant (audio : list R) (sr : Z) (fd : float) :
  compute_loudness (map Ropp audio) sr fd = compute_loudness audio sr fd.
Proof.
  assert (Hrms : forall frame, rms_of (map Ropp frame) = rms_of frame).
  { intros frame. unfold rms_of. f_equal. f_equal.
    rewrite map_map. apply map_ext. intros x. ring. }
  destruct (compute_loudness_cases audio sr fd)
    as [(c & Hc & ->) | [[H0 ->] | [(fs & Hsize & Hfs & ->) | (fs & Hsize & Hfs & ->)]]].
  - now apply compute_loudness_no_frame_size.
  - now apply compute_loudness_zero.
  - now apply (compute_loudness_negative _ sr fd fs).
  - rewrite (compute_loudness_frames _ sr fd fs) by assumption.
    rewrite n_frames_of_map. f_equal. f_equal.
    apply map_ext. intros i. now rewrite frame_at_map, Hrms.
Qed.

Lemma Rsum_squares_constant (a : R) (frame : list R) :
  Forall (fun x => Rabs x = a) frame ->
  Rsum (map (fun x => x ^ 2) frame) = INR (length frame) * a ^ 2.
Proof.
  induction 1 as [| x frame Hx _ IH]; cbn [map].
  - unfold Rsum. simpl. ring.
  - rewrite Rsum_cons, IH. change (length (x :: frame)) with (S (length frame)).
    rewrite S_INR, <- Hx, pow2_abs. ring.
Qed.

(** A frame whose samples all have the absolute value [a] has the rms [a]. *)
Lemma rms_of_constant_amplitude (a : R) (frame : list R) :
  frame <> [] -> Forall (fun x => Rabs x = a) frame -> rms_of frame = a.
Proof.
  intros Hne Hall. unfold rms_of, np_mean.
  rewrite length_map, (Rsum_squares_constant a) by exact Hall.
  assert (Ha : 0 <= a).
  { destruct Hall as [| x frame Hx _]; [contradiction |].
    rewrite <- Hx. apply Rabs_pos. }
  assert (Hn : 0 < INR (length frame)).
  { apply lt_0_INR. destruct frame; [contradiction | simpl; lia]. }
  replace (INR (length frame) * a ^ 2 / INR (length frame)) with a² 
    by (unfold Rsqr; field; lra).
  now apply sqrt_Rsqr.
Qed.

(** X6: a waveform whose samples all have the absolute value [a], [a] not
    below [1e-10], has the loudness [20 * log10(a / 2^15)] in every frame;
    at full scale, [a = 2^15], that is [0] dB. *)
Theorem constant_amplitude_loudness (audio : list R) (sr : Z) (fd : float) (a : R)
    (times loudness_db : list R) :
  Forall (fun x => Rabs x = a) audio -> 1e-10 <= a ->
  compute_loudness audio sr fd = Ok (times, loudness_db) ->
  Forall (fun v => v = 20 * log10 (a / 2 ^ 15)) loudness_db /\
  (a = 2 ^ 15 -> Forall (fun v => v = 0) loudness_db).
Proof.
  intros Hall Ha Hrun.
  assert (Hvalues : Forall (fun v => v = 20 * log10 (a / 2 ^ 15)) loudness_db).
  { destruct (compute_loudness_returns _ _ _ _ _ Hrun)
      as (fs & Hsize & [(Hfs & -> & ->) | (Hfs & -> & ->)]).
    - constructor.
    - apply Forall_forall. intros v Hv.
      apply in_map_iff in Hv as [i [<- Hi]]. apply in_range in Hi.
      pose proof (frame_at_nonempty audio _ i Hfs Hi) as Hlen.
      rewrite (rms_of_constant_amplitude a).
      + destruct (db_of_rms_cases a) as [[Hlt _] | [_ ->]]; [lra | reflexivity].
      + intros Heq. rewrite Heq in Hlen. unfold len in Hlen. simpl in Hlen. lia.
      + unfold frame_at. now apply Forall_py_slice. }
  split; [exact Hvalues |].
  intros ->. revert Hvalues. apply Forall_impl. intros v ->.
  replace (2 ^ 15 / 2 ^ 15) with 1 by (field; lra).
  rewrite log10_1. ring.
Qed.

Lemma constant_amplitude_loudness_witness :
  Forall (fun v => v = 0)
    [db_of_rms (rms_of (frame_at [2 ^ 15; - 2 ^ 15] 1 0));
     db_of_rms (rms_of (frame_at [2 ^ 15; - 2 ^ 15] 1 1))].
Proof.
  assert (Hrun : compute_loudness [2 ^ 15; - 2 ^ 15] 1 1
                 = Ok ([IZR (0 * 1) / IZR 1; IZR (1 * 1) / IZR 1],
                       [db_of_rms (rms_of (frame_at [2 ^ 15; - 2 ^ 15] 1 0));
                        db_of_rms (rms_of (frame_at [2 ^ 15; - 2 ^ 15] 1 1))])).
  { rewrite (compute_loudness_frames _ _ _ 1 frame_size_1_1) by lia. reflexivity. }
  assert (Hall : Forall (fun x => Rabs x = 2 ^ 15) [2 ^ 15; - 2 ^ 15]).
  { repeat constructor.
    - apply Rabs_right. lra.
    - rewrite Rabs_Ropp. apply Rabs_right. lra. }
  assert (Ha : 1e-10 <= 2 ^ 15) by lra.
  destruct (constant_amplitude_loudness _ _ _ _ _ _ Hall Ha Hrun) as [_ H].
  now apply H.
Defined.

(** ** More on [moving_average] *)

Lemma moving_average_no_data (ws : Z) : moving_average [] ws = Raise ValueError.
Proof.
  unfold moving_average, np_ones.
  destruct (Z.ltb_spec ws 0); [reflexivity |]. cbn [bind].
  rewrite kernel_eq. unfold np_convolve_same.
  rewrite len_repeat. change (len (@nil R)) with 0%Z.
  destruct (Z.ltb_spec 0 (Z.of_nat (Z.to_nat ws))) as [Hlt | Hge].
  - rewrite len_repeat. destruct (Z.eqb_spec (Z.of_nat (Z.to_nat ws)) 0); [lia |].
    reflexivity.
  - reflexivity.
Qed.

Lemma moving_average_no_window (data : list R) (ws : Z) :
  (ws <= 0)%Z -> moving_average data ws = Raise ValueError.
Proof.
  intros Hws. destruct data as [| x data]; [apply moving_average_no_data |].
  unfold moving_average, np_ones.
  destruct (Z.ltb_spec ws 0); [reflexivity |]. cbn [bind].
  replace ws with 0%Z by lia. reflexivity.
Qed.

(** A result means a series that is not empty and a positive window. *)
Lemma moving_average_returns (data : list R) (ws : Z) (out : list R) :
  moving_average data ws = Ok out -> data <> [] /\ (1 <= ws)%Z.
Proof.
  intros Hrun. split.
  - intros ->. rewrite moving_average_no_data in Hrun. discriminate.
  - destruct (Z_le_gt_dec ws 0) as [Hws | Hws]; [| lia].
    rewrite moving_average_no_window in Hrun by exact Hws. discriminate.
Qed.

(** X7: [moving_average] raises [ValueError] when the series is empty or the
    window size is not positive, and only then; otherwise the result has
    [max(len(data), window_size)] entries. *)
Theorem moving_average_outcome (data : list R) (ws : Z) :
  match moving_average data ws with
  | Ok out => data <> [] /\ (1 <= ws)%Z /\ len out = Z.max (len data) ws
  | Raise e => e = ValueError /\ (data = [] \/ (ws <= 0)%Z)
  end.
Proof.
  destruct data as [| x data].
  - rewrite moving_average_no_data. auto.
  - destruct (Z_le_gt_dec ws 0) as [Hws | Hws].
    + rewrite moving_average_no_window by exact Hws. auto.
    + destruct (moving_average_length (x :: data) ws) as (out & -> & Hlen).
      * unfold len. simpl. lia.
      * lia.
      * split; [discriminate |]. split; [lia | exact Hlen].
Qed.

Lemma Rsum_bounds (a b : R) (l : list R) :
  Forall (fun x => a <= x <= b) l ->
  INR (length l) * a <= Rsum l <= INR (length l) * b.
Proof.
  induction 1 as [| x l Hx _ IH].
  - unfold Rsum. simpl. lra.
  - rewrite Rsum_cons. change (length (x :: l)) with (S (length l)).
    rewrite S_INR. lra.
Qed.

Lemma get_bounds (lo hi : R) (a : list R) (i : Z) :
  lo <= 0 <= hi -> Forall (fun x => lo <= x <= hi) a -> lo <= get a i <= hi.
Proof.
  intros H0 Hall. unfold get. destruct (Z.ltb_spec i 0); [exact H0 |].
  destruct (Nat.lt_ge_cases (Z.to_nat i) (length a)) as [Hin | Hout].
  - rewrite Forall_forall in Hall. apply Hall. now apply nth_In.
  - now rewrite nth_overflow.
Qed.

Lemma get_repeat_bounds (c : R) (n : nat) (i : Z) :
  0 <= c -> 0 <= get (repeat c n) i <= c.
Proof.
  intros Hc. apply get_bounds; [lra |].
  apply Forall_forall. intros x Hx. apply repeat_spec in Hx. lra.
Qed.

(** X8: smoothing keeps a series within its bounds, as long as the bounds
    enclose [0], the value the convolution reads outside the series. *)
Theorem moving_average_bounds (data : list R) (ws : Z) (lo hi : R) (out : list R) :
  lo <= 0 <= hi ->
  Forall (fun x => lo <= x <= hi) data ->
  moving_average data ws = Ok out ->
  Forall (fun y => lo <= y <= hi) out.
Proof.
  intros H0 Hall Hrun.
  destruct (moving_average_returns data ws out Hrun) as [Hdata Hws].
  assert (Hlen : (1 <= len data)%Z).
  { destruct data; [contradiction | unfold len; simpl; lia]. }
  assert (HwsR : 0 < IZR ws) by (apply IZR_lt; lia).
  destruct (Z_lt_le_dec (len data) ws) as [Hlong | Hshort].
  - rewrite moving_average_long_window in Hrun by lia.
    injection Hrun as <-. unfold correlate_same.
    apply Forall_forall. intros y Hy. apply in_map_iff in Hy as [k [<- _]].
    set (terms := map _ (range (len (rev data)))).
    assert (Hterms : Forall (fun t => lo / IZR ws <= t <= hi / IZR ws) terms).
    { apply Forall_forall. intros t Ht. apply in_map_iff in Ht as [j [<- _]].
      pose proof (get_repeat_bounds (1 / IZR ws) (Z.to_nat ws)
                    (k - len (rev data) / 2 + j)) as Hg.
      assert (Hk : 0 <= 1 / IZR ws) by (apply Rlt_le, Rdiv_lt_0_compat; lra).
      specialize (Hg Hk).
      pose proof (get_bounds lo hi (rev data) j H0) as Hd.
      assert (Hrev : Forall (fun x => lo <= x <= hi) (rev data)).
      { apply Forall_forall. intros x Hx. apply in_rev in Hx.
        revert x Hx. now apply Forall_forall. }
      specialize (Hd Hrev).
      set (g := get (repeat (1 / IZR ws) (Z.to_nat ws)) (k - len (rev data) / 2 + j)) in *.
      set (d := get (rev data) j) in *.
      unfold Rdiv in *. rewrite Rmult_1_l in Hg, Hk.
      set (iw := / IZR ws) in *. nra. }
    pose proof (Rsum_bounds _ _ _ Hterms) as Hsum.
    assert (Hn : 0 <= INR (length terms) <= IZR ws).
    { unfold terms. rewrite length_map, length_range.
      unfold len. rewrite Nat2Z.id, length_rev, INR_IZR_INZ.
      split; [apply IZR_le; lia | apply IZR_le; unfold len in Hlong; lia]. }
    set (n := INR (length terms)) in *. set (s := Rsum terms) in *.
    assert (Hlo : lo <= n * (lo / IZR ws)).
    { apply Rmult_le_reg_r with (IZR ws); [exact HwsR |].
      replace (n * (lo / IZR ws) * IZR ws) with (n * lo) by (field; lra). nra. }
    assert (Hhi : n * (hi / IZR ws) <= hi).
    { apply Rmult_le_reg_r with (IZR ws); [exact HwsR |].
      replace (n * (hi / IZR ws) * IZR ws) with (n * hi) by (field; lra). nra. }
    lra.
  - rewrite moving_average_short_window in Hrun by lia.
    injection Hrun as <-.
    apply Forall_forall. intros y Hy. apply in_map_iff in Hy as [k [<- _]].
    set (terms := map _ (range ws)).
    assert (Hterms : Forall (fun t => lo <= t <= hi) terms).
    { apply Forall_forall. intros t Ht. apply in_map_iff in Ht as [j [<- _]].
      now apply get_bounds. }
    pose proof (Rsum_bounds _ _ _ Hterms) as Hsum.
    assert (Hn : INR (length terms) = IZR ws).
    { unfold terms. rewrite length_map, length_range, INR_IZR_INZ. f_equal. lia. }
    rewrite Hn in Hsum. set (s := Rsum terms) in *.
    split.
    + apply Rmult_le_reg_r with (IZR ws); [exact HwsR |].
      replace (s / IZR ws * IZR ws) with s by (field; lra). lra.
    + apply Rmult_le_reg_r with (IZR ws); [exact HwsR |].
      replace (s / IZR ws * IZR ws) with s by (field; lra). lra.
Qed.

Lemma moving_average_bounds_witness :
  exists out,
    moving_average [-30; -10] 3 = Ok out /\
    Forall (fun y => -30 <= y <= 0) out.
Proof.
  destruct (moving_average_length [-30; -10] 3) as (out & Hrun & _).
  - unfold len. simpl. lia.
  - lia.
  - exists out. split; [exact Hrun |].
    apply (moving_average_bounds [-30; -10] 3 (-30) 0 out).
    + lra.
    + repeat constructor; lra.
    + exact Hrun.
Defined.

(** A window of [n] entries from [lo] on, read with zeros outside, sums the
    slice of the entries that exist. *)
Lemma window_sum_py_slice (a : list R) (lo n : Z) :
  (0 <= n)%Z -> (lo < len a)%Z -> (0 <= lo + n)%Z ->
  Rsum (map (fun j => get a (lo + j)) (range n)) =
  Rsum (py_slice a (Z.max 0 lo) (lo + n)).
Proof.
  intros Hn Hlo Hhi.
  replace n with (Z.of_nat (Z.to_nat n)) at 1 by lia.
  rewrite window_sum_firstn, Z2Nat.id by lia. f_equal.
  unfold py_slice, slice_bound.
  destruct (Z.ltb_spec (Z.max 0 lo) 0); [lia |].
  destruct (Z.ltb_spec (lo + n) 0); [lia |].
  replace (Z.to_nat (Z.max 0 (Z.min (len a) (Z.max 0 lo)))) with (Z.to_nat lo) by lia.
  set (l := skipn (Z.to_nat lo) a).
  assert (Hl : length l = (length a - Z.to_nat lo)%nat)
    by (unfold l; apply length_skipn).
  unfold len in *.
  destruct (Z_lt_le_dec (lo + n) (Z.of_nat (length a))) as [Hin | Hout].
  - f_equal. lia.
  - rewrite !firstn_all2 by lia. reflexivity.
Qed.

(** X9: with an even window [2 * w] no longer than the series, entry [i] is
    the sum of [series[max(0, i - w) : i + w]] divided by the window size:
    the window reaches one entry further back than forward. *)
Theorem moving_average_even_window (data : list R) (w : Z) :
  (1 <= w)%Z -> (2 * w <= len data)%Z ->
  exists out,
    moving_average data (2 * w) = Ok out /\
    length out = length data /\
    forall i : nat, (i < length data)%nat ->
      nth i out 0 =
        Rsum (py_slice data (Z.max 0 (Z.of_nat i - w)) (Z.of_nat i + w))
        / IZR (2 * w).
Proof.
  intros Hw Hlen. rewrite moving_average_short_window by lia.
  assert (Hhalf : (2 * w / 2 = w)%Z).
  { rewrite Z.mul_comm. apply Z.div_mul. lia. }
  rewrite Hhalf. eexists. split; [reflexivity |]. split.
  - rewrite length_map, length_range. unfold len. lia.
  - intros i Hi. rewrite nth_map_range by (unfold len; lia).
    rewrite window_sum_py_slice by (unfold len; lia).
    replace (Z.of_nat i - w + 2 * w)%Z with (Z.of_nat i + w)%Z by lia.
    reflexivity.
Qed.

Lemma moving_average_even_window_witness :
  exists out,
    moving_average [4; 8; 12] (2 * 1) = Ok out /\
    nth 1 out 0 = 6.
Proof.
  destruct (moving_average_even_window [4; 8; 12] 1) as (out & Hrun & _ & Hnth).
  - lia.
  - unfold len. simpl. lia.
  - exists out. split; [exact Hrun |].
    rewrite (Hnth 1%nat) by (simpl; lia). simpl. lra.
Defined.

Lemma Rsum_all_equal (c : R) (l : list R) :
  Forall (fun x => x = c) l -> Rsum l = INR (length l) * c.
Proof.
  intros Hall.
  assert (Hb : Forall (fun x => c <= x <= c) l).
  { revert Hall. apply Forall_impl. intros x ->. lra. }
  pose proof (Rsum_bounds c c l Hb). lra.
Qed.

Lemma length_py_slice_clipped {A : Type} (l : list A) (lo hi : Z) :
  (0 <= lo <= len l)%Z -> (lo <= hi)%Z ->
  len (py_slice l lo hi) = (Z.min (len l) hi - lo)%Z.
Proof.
  intros Hlo Hhi. unfold py_slice, slice_bound, len in *.
  destruct (Z.ltb_spec lo 0); [lia |].
  destruct (Z.ltb_spec hi 0); [lia |].
  rewrite length_firstn, length_skipn. lia.
Qed.

(** X10: smoothing a constant series with an odd window divides, at every
    position, the number of entries the window covers by the window size:
    the entries at distance at least [w] from both ends keep the value, the
    others are pulled toward [0]. *)
Theorem moving_average_of_constant (c : R) (n : nat) (w : Z) (i : nat) :
  (0 <= w)%Z -> (2 * w + 1 <= Z.of_nat n)%Z -> (i < n)%nat ->
  exists out,
    moving_average (repeat c n) (2 * w + 1) = Ok out /\
    nth i out 0 =
      c * IZR (Z.min (Z.of_nat n) (Z.of_nat i + w + 1) - Z.max 0 (Z.of_nat i - w))
      / IZR (2 * w + 1) /\
    ((w <= Z.of_nat i < Z.of_nat n - w)%Z -> nth i out 0 = c).
Proof.
  intros Hw Hlen Hi.
  assert (Hn : len (repeat c n) = Z.of_nat n) by apply len_repeat.
  rewrite moving_average_short_window by lia.
  assert (Hhalf : ((2 * w + 1) / 2 = w)%Z).
  { symmetry. apply Z.div_unique with (r := 1%Z); lia. }
  rewrite Hhalf, Hn. eexists. split; [reflexivity |].
  rewrite nth_map_range by lia.
  rewrite window_sum_py_slice by lia.
  replace (Z.of_nat i - w + (2 * w + 1))%Z with (Z.of_nat i + w + 1)%Z by lia.
  rewrite (Rsum_all_equal c).
  2:{ apply Forall_py_slice. apply Forall_forall. intros x Hx.
      now apply repeat_spec in Hx. }
  assert (Hcount : INR (length (py_slice (repeat c n) (Z.max 0 (Z.of_nat i - w))
                                  (Z.of_nat i + w + 1)))
                   = IZR (Z.min (Z.of_nat n) (Z.of_nat i + w + 1)
                          - Z.max 0 (Z.of_nat i - w))).
  { rewrite INR_IZR_INZ. f_equal.
    fold (len (py_slice (repeat c n) (Z.max 0 (Z.of_nat i - w)) (Z.of_nat i + w + 1))).
    rewrite length_py_slice_clipped, Hn by lia. reflexivity. }
  rewrite Hcount. split.
  - unfold Rdiv. ring.
  - intros Hin.
    replace (Z.min (Z.of_nat n) (Z.of_nat i + w + 1) - Z.max 0 (Z.of_nat i - w))%Z
      with (2 * w + 1)%Z by lia.
    field. apply not_0_IZR. lia.
Qed.

Lemma moving_average_of_constant_witness :
  exists out,
    moving_average (repeat (-30) 4) (2 * 1 + 1) = Ok out /\
    nth 0 out 0 = -20 /\ nth 1 out 0 = -30.
Proof.
  destruct (moving_average_of_constant (-30) 4 1 0) as (out & Hrun & H0 & _);
    [lia | lia | lia |].
  destruct (moving_average_of_constant (-30) 4 1 1) as (out' & Hrun' & _ & H1);
    [lia | lia | lia |].
  rewrite Hrun in Hrun'. injection Hrun' as <-.
  exists out. split; [exact Hrun |]. split.
  - rewrite H0.
    replace (Z.min (Z.of_nat 4) (Z.of_nat 0 + 1 + 1) - Z.max 0 (Z.of_nat 0 - 1))%Z
      with 2%Z by reflexivity.
    replace (2 * 1 + 1)%Z with 3%Z by reflexivity. lra.
  - apply H1. lia.
Defined.

(** ** More on the highlight condition *)

(** X11: over the same range and threshold, the mask of the values above
    and the mask of the values below the threshold never mark the same
    index, and an index whose value equals the threshold is in neither. *)
Theorem opposite_masks_are_disjoint (times loudness : list R) (s e thr : R) :
  length times = length loudness ->
  exists below over,
    highlight_condition times loudness s e thr false = Ok below /\
    highlight_condition times loudness s e thr true = Ok over /\
    forall i : nat,
      nth i below false && nth i over false = false /\
      ((i < length times)%nat -> nth i loudness 0 = thr ->
       nth i below false = false /\ nth i over false = false).
Proof.
  intros Hlen. rewrite !highlight_condition_same_length by exact Hlen.
  do 2 eexists. split; [reflexivity |]. split; [reflexivity |].
  intros i.
  destruct (Nat.lt_ge_cases i (length times)) as [Hi | Hi].
  - rewrite !nth_map_combine with (a := 0) (b := 0) by assumption.
    cbn [fst snd]. unfold mask_entry.
    set (v := nth i loudness 0). split.
    + destruct (Rlt_dec v thr) as [Hlt | Hge].
      * rewrite (Rltb_false thr v) by lra. now rewrite !andb_false_r.
      * rewrite (Rltb_false v thr) by exact Hge. now rewrite !andb_false_r.
    + intros _ Heq.
      rewrite (Rltb_false v thr), (Rltb_false thr v) by lra.
      now rewrite !andb_false_r.
  - rewrite !nth_overflow by (rewrite length_map, length_combine; lia).
    split; [reflexivity | lia].
Qed.

Lemma opposite_masks_are_disjoint_witness :
  exists below over,
    highlight_condition [0; 1] [-30; -20] 0 1 (-20) false = Ok below /\
    highlight_condition [0; 1] [-30; -20] 0 1 (-20) true = Ok over /\
    nth 1 below false = false /\ nth 1 over false = false.
Proof.
  destruct (opposite_masks_are_disjoint [0; 1] [-30; -20] 0 1 (-20) eq_refl)
    as (below & over & Hb & Ho & H).
  exists below, over. split; [exact Hb |]. split; [exact Ho |].
  apply (H 1%nat); simpl; [lia | reflexivity].
Defined.

(** ** More on [plot_loudness] *)

Lemma existsb_eqb_In (l : string) (unique : list string) :
  existsb (String.eqb l) unique = true <-> In l unique.
Proof.
  rewrite existsb_exists. split.
  - intros [x [Hx Heq]]. apply String.eqb_eq in Heq. now subst.
  - intros H. exists l. split; [exact H | apply String.eqb_refl].
Qed.

Lemma dedupe_spec (labels unique : list string) :
  NoDup unique ->
  NoDup (dedupe unique labels) /\
  (exists added, dedupe unique labels = unique ++ added) /\
  (forall l, In l (dedupe unique labels) <->
             In l unique \/ (In l labels /\ l <> ""%string)).
Proof.
  revert unique. induction labels as [| l0 labels IH]; intros unique Hnd.
  - simpl. split; [exact Hnd |]. split; [exists []; now rewrite app_nil_r |].
    intros l. tauto.
  - cbn [dedupe].
    destruct (existsb (String.eqb l0) unique) eqn:Hseen; cbn [negb andb].
    + apply existsb_eqb_In in Hseen.
      destruct (IH unique Hnd) as (H1 & H2 & H3).
      split; [exact H1 |]. split; [exact H2 |].
      intros l. rewrite H3. simpl. split.
      * intros [H | [H Hl]]; auto.
      * intros [H | [[-> | H] Hl]]; auto.
    + assert (Hnew : ~ In l0 unique).
      { intros H. apply existsb_eqb_In in H. congruence. }
      destruct (String.eqb_spec l0 "") as [-> | Hne]; cbn [negb].
      * destruct (IH unique Hnd) as (H1 & H2 & H3).
        split; [exact H1 |]. split; [exact H2 |].
        intros l. rewrite H3. simpl. split.
        -- intros [H | [H Hl]]; auto.
        -- intros [H | [[<- | H] Hl]]; auto. contradiction.
      * assert (Hnd' : NoDup (unique ++ [l0])).
        { apply NoDup_app; [exact Hnd | repeat constructor; intros [] | ].
          intros x Hx [<- | []]. contradiction. }
        destruct (IH (unique ++ [l0]) Hnd') as (H1 & [added H2] & H3).
        split; [exact H1 |]. split.
        -- exists (l0 :: added). rewrite H2, <- app_assoc. reflexivity.
        -- intros l. rewrite H3, in_app_iff. simpl. split.
           ++ intros [[H | [<- | []]] | [H Hl]]; auto.
           ++ intros [H | [[<- | H] Hl]]; auto.
Qed.

(** X12: the loop that builds the legend keeps every label that is not
    empty exactly once. *)
Theorem dedupe_keeps_each_label_once (labels : list string) :
  NoDup (dedupe [] labels) /\
  (forall l, In l (dedupe [] labels) <-> In l labels /\ l <> ""%string).
Proof.
  destruct (dedupe_spec labels [] (NoDup_nil _)) as (H1 & _ & H3).
  split; [exact H1 |]. intros l. rewrite H3. simpl. tauto.
Qed.

Lemma highlight_overlays_labels (E : externals) (times loudness : list R)
    (highlights : list highlight) :
  Forall (fun a => label_of a = ""%string)
    (highlight_overlays E times loudness highlights).
Proof.
  apply Forall_forall. intros a Ha.
  apply in_flat_map in Ha as [h [_ Ha]].
  unfold highlight_audio_section in Ha.
  destruct (highlight_condition _ _ _ _ _ _) as [condition | err];
    cbn [bind wrap_runtime] in Ha; [| contradiction].
  destruct (fill_between_error _ _ _ _ _ _ _); cbn [wrap_runtime] in Ha;
    [contradiction |].
  destruct Ha as [<- | []]. reflexivity.
Qed.

Lemma dedupe_skips_unlabelled (unique : list string) (artists : list artist)
    (rest : list string) :
  Forall (fun a => label_of a = ""%string) artists ->
  dedupe unique (map label_of artists ++ rest) = dedupe unique rest.
Proof.
  induction 1 as [| a artists Ha _ IH]; [reflexivity |].
  cbn [map app dedupe]. rewrite Ha. cbn [String.eqb negb].
  rewrite andb_false_r. exact IH.
Qed.

Lemma length_highlight_overlays (E : externals) (times loudness : list R)
    (highlights : list highlight) :
  (length (highlight_overlays E times loudness highlights)
   + length (highlight_warnings E times loudness highlights)
   = length highlights)%nat.
Proof.
  induction highlights as [| h rest IH]; [reflexivity |].
  cbn [highlight_overlays highlight_warnings flat_map].
  fold (highlight_overlays E times loudness rest).
  fold (highlight_warnings E times loudness rest).
  rewrite !length_app.
  assert (Hone :
    (length (match highlight_audio_section E empty_axes times loudness h with
             | Ok ax => children ax | Raise _ => [] end)
     + length (match highlight_audio_section E empty_axes times loudness h with
               | Ok _ => [] | Raise err => [Warning_failed_to_highlight h err] end)
     = 1)%nat).
  { unfold highlight_audio_section.
    destruct (highlight_condition _ _ _ _ _ _) as [condition | err];
      cbn [bind wrap_runtime]; [| reflexivity].
    destruct (fill_between_error _ _ _ _ _ _ _); reflexivity. }
  simpl. lia.
Qed.

(** X13: a chart that is saved, at the path [savefig] writes for the name,
    has one artist for each of the six fixed elements and one per highlight
    that did not fail, and a legend that lists the six fixed labels and
    nothing else, whatever the highlights. *)
Theorem saved_chart_layout (E : externals) (times loudness : list R)
    (save_path : string) (highlights : list highlight) (w : world) :
  length times = length loudness -> times <> [] ->
  String.eqb save_path "" = false -> savefig_error E save_path = None ->
  exists w' chart,
    plot_loudness E times loudness save_path (Some highlights) w = (w', Ok tt) /\
    files w' (savefig_path E save_path) = Some (ChartFile chart) /\
    legend chart =
      ["Loudness in dB"; "High Audio -22 dB"; "Low Audio -26 dB";
       "Detected low audio for >= 5s"; "Detected high audio for >= 5s";
       "Detected no audio for >= 5s"]%string /\
    (length (children chart)
     + length (highlight_warnings E times loudness highlights)
     = 6 + length highlights)%nat.
Proof.
  intros Hlen Hne Hpath Hsave.
  rewrite plot_loudness_run by assumption. cbv zeta.
  rewrite Hpath, Hsave. do 2 eexists. split; [reflexivity |].
  split; [cbn [files]; unfold write_file; now rewrite String.eqb_refl |].
  split.
  - unfold rendered_chart. cbn [legend highlights_of].
    rewrite !map_app. cbn [map label_of app dedupe existsb String.eqb negb andb].
    rewrite dedupe_skips_unlabelled by apply highlight_overlays_labels.
    reflexivity.
  - unfold rendered_chart. cbn [children highlights_of].
    rewrite !length_app. cbn [length].
    pose proof (length_highlight_overlays E times loudness highlights). lia.
Qed.

Lemma saved_chart_layout_witness :
  exists w' chart,
    plot_loudness example_externals [0; 1] [-30; -10] "out.png"
      (Some example_highlights) stale_world = (w', Ok tt) /\
    files w' "out.png"%string = Some (ChartFile chart) /\
    length (legend chart) = 6%nat.
Proof.
  destruct (saved_chart_layout example_externals [0; 1] [-30; -10] "out.png"
              example_highlights stale_world)
    as (w' & chart & Hrun & Hfile & Hlegend & _);
    [reflexivity | discriminate | reflexivity | reflexivity |].
  exists w', chart. split; [exact Hrun |]. split; [exact Hfile |].
  now rewrite Hlegend.
Defined.

(** ** The stages of [main] *)

Lemma main_conclude (E : externals)
    (video_path output_graph_path graph_name : string)
    (highlights : list highlight) (w : world) :
  main E video_path output_graph_path graph_name highlights w =
    conclude E
      ((extract_audio_from_video E video_path AUDIO_TEMP_PATH ;;;
        sr_audio <~ read_audio AUDIO_TEMP_PATH ;;
        let '(sr, audio) := sr_audio in
        analyse_and_plot E sr audio
          (path_join E output_graph_path graph_name) highlights) w).
Proof.
  unfold main. cbv zeta. unfold try_finally.
  match goal with
  | |- context [try_except ?b _ w] => set (body := b)
  end.
  assert (Hbody :
    (extract_audio_from_video E video_path AUDIO_TEMP_PATH ;;;
     sr_audio <~ read_audio AUDIO_TEMP_PATH ;;
     let '(sr, audio) := sr_audio in
     analyse_and_plot E sr audio
       (path_join E output_graph_path graph_name) highlights) w
    = body w).
  { unfold body. apply bindM_ext; [reflexivity | intros [] w1].
    apply bindM_ext; [reflexivity | intros [sr audio] w2]. reflexivity. }
  rewrite Hbody. unfold try_except at 1.
  destruct (body w) as [wb [[] | err]]; unfold conclude; cbn [fst snd].
  - rewrite cleanup_run. destruct (files wb AUDIO_TEMP_PATH); [| reflexivity].
    destruct (remove_error E AUDIO_TEMP_PATH); reflexivity.
  - unfold print at 1. rewrite cleanup_run. cbn [files stdout].
    unfold add_stdout. cbn [files stdout].
    destruct (files wb AUDIO_TEMP_PATH); [| reflexivity].
    destruct (remove_error E AUDIO_TEMP_PATH); reflexivity.
Qed.

(** The world after a successful extraction: the file holds what
    [write_audiofile] stores for the track. *)
Lemma extract_run (E : externals) (video_path audio_path : string)
    (track : Z * wav_data) (sr : Z) (data : wav_data) (w : world) :
  VideoFileClip E video_path = Ok {| audio := Some track |} ->
  write_audiofile_error E track audio_path = None ->
  written_audio E track = (sr, data) ->
  extract_audio_from_video E video_path audio_path w =
    ({| files := write_file (files w) audio_path (WavFile sr data);
        stdout := stdout w |}, Ok tt).
Proof.
  intros Hclip Hwrite Hdata. unfold extract_audio_from_video, bindM, lift.
  rewrite Hclip. cbn [audio]. now rewrite Hwrite, Hdata.
Qed.

Lemma extract_fails (E : externals) (video_path audio_path : string) (err : exn)
    (w : world) :
  VideoFileClip E video_path = Raise err \/
  (VideoFileClip E video_path = Ok {| audio := None |} /\ err = ValueError) ->
  extract_audio_from_video E video_path audio_path w = (w, Raise err).
Proof.
  intros [Hclip | [Hclip ->]]; unfold extract_audio_from_video, bindM, lift;
    rewrite Hclip; reflexivity.
Qed.

Lemma read_audio_extracted (w : world) (sr : Z) (data : wav_data) :
  read_audio AUDIO_TEMP_PATH (extracted w sr data)
  = (extracted w sr data, Ok (sr, to_mono data)).
Proof.
  unfold read_audio, extracted. cbn [files]. unfold write_file.
  rewrite String.eqb_refl. destruct data; reflexivity.
Qed.

(** [main] once the waveform has been extracted and read back. *)
Lemma main_extracted (E : externals)
    (video_path output_graph_path graph_name : string)
    (highlights : list highlight) (track : Z * wav_data) (sr : Z)
    (data : wav_data) (w : world) :
  VideoFileClip E video_path = Ok {| audio := Some track |} ->
  write_audiofile_error E track AUDIO_TEMP_PATH = None ->
  written_audio E track = (sr, data) ->
  main E video_path output_graph_path graph_name highlights w =
    conclude E
      (analyse_and_plot E sr (to_mono data)
         (path_join E output_graph_path graph_name) highlights
         (extracted w sr data)).
Proof.
  intros Hclip Hwrite Hdata. rewrite main_conclude. f_equal.
  unfold bindM at 1. rewrite (extract_run E _ _ track sr data) by assumption.
  fold (extracted w sr data).
  unfold bindM at 1. rewrite read_audio_extracted. reflexivity.
Qed.

Lemma frame_size_of_spec (sr : Z) (fd : float) :
  frame_size sr fd = frame_size_of sr (Prim2SF fd).
Proof.
  unfold frame_size, double_product, frame_size_of.
  destruct (double_of_int sr); reflexivity.
Qed.

Lemma tenth_below_spec (fd : spec_float) (n : nat) (start sr : Z) :
  tenth_below fd n start = true ->
  (start <= sr < start + Z.of_nat n)%Z ->
  frame_size_of sr fd = Ok (sr / 10)%Z.
Proof.
  revert start. induction n as [| n IH]; intros start Hall Hsr; [lia |].
  cbn [tenth_below] in Hall. apply andb_prop in Hall as [Hhere Hrest].
  destruct (Z.eq_dec sr start) as [-> | Hne].
  - destruct (frame_size_of start fd) as [fs |]; [| discriminate].
    apply Z.eqb_eq in Hhere. now subst.
  - apply (IH (start + 1)%Z Hrest). lia.
Qed.

Lemma tenth_below_checked :
  let fd := Prim2SF FRAME_DURATION in tenth_below fd (Z.to_nat 50000) 0 = true.
Proof. vm_compute. reflexivity. Qed.

(** [FRAME_DURATION] is the binary64 number nearest to a tenth of a second:
    for every sample rate below 50 kHz the frame size is a tenth of the
    sample rate, rounded down. *)
Lemma frame_size_tenth (sr : Z) :
  (0 <= sr < 50000)%Z -> frame_size sr FRAME_DURATION = Ok (sr / 10)%Z.
Proof.
  intros Hsr. rewrite frame_size_of_spec.
  apply (tenth_below_spec _ (Z.to_nat 50000) 0 sr tenth_below_checked).
  rewrite Z2Nat.id; lia.
Qed.

Lemma conclude_with_temp_file (E : externals) (wa : world) (r : result unit)
    (f : file) :
  files wa AUDIO_TEMP_PATH = Some f ->
  exists w',
    conclude E (wa, r) = (w', Ok tt) /\
    (forall p, p <> AUDIO_TEMP_PATH -> files w' p = files wa p) /\
    stdout w' = stdout wa ++ failure_report r ++ removal_report E /\
    (remove_error E AUDIO_TEMP_PATH = None -> files w' AUDIO_TEMP_PATH = None).
Proof.
  intros Hfile. unfold conclude, removal_report, failure_report. cbn [fst snd].
  set (wb := match r with Ok _ => wa | Raise err => add_stdout wa [Error_in_main err] end).
  assert (Hfiles : files wb = files wa) by (unfold wb; destruct r; reflexivity).
  assert (Hout : stdout wb = stdout wa ++ match r with Ok _ => [] | Raise err => [Error_in_main err] end).
  { unfold wb. destruct r; cbn [stdout add_stdout]; [now rewrite app_nil_r | reflexivity]. }
  rewrite Hfiles, Hfile.
  destruct (remove_error E AUDIO_TEMP_PATH) as [err |].
  - eexists. split; [reflexivity |]. split; [| split; [| discriminate]].
    + intros p _. cbn [files add_stdout]. now rewrite Hfiles.
    + cbn [stdout add_stdout]. rewrite Hout. now rewrite <- app_assoc.
  - eexists. split; [reflexivity |]. split; [| split].
    + intros p Hp. cbn [files]. unfold delete_file.
      destruct (String.eqb_spec p AUDIO_TEMP_PATH); [contradiction | reflexivity].
    + cbn [stdout]. rewrite Hout, app_nil_r. reflexivity.
    + intros _. cbn [files]. unfold delete_file. now rewrite String.eqb_refl.
Qed.

(** ** [read_audio] *)

(** X15: a file of several channels is read as one channel of the same
    length whose samples are the means of the rows; for two channels that
    is half the sum of left and right. The world is left as it is. *)
Theorem read_audio_downmix (audio_path : string) (sr : Z)
    (rows : list (list R)) (w : world) :
  files w audio_path = Some (WavFile sr (MultiChannel rows)) ->
  exists samples,
    read_audio audio_path w = (w, Ok (sr, samples)) /\
    length samples = length rows /\
    (forall (i : nat) (row : list R),
       nth_error rows i = Some row ->
       nth_error samples i = Some (np_mean row)) /\
    (forall (i : nat) (l r : R),
       nth_error rows i = Some [l; r] -> nth i samples 0 = (l + r) / 2).
Proof.
  intros Hfile. unfold read_audio. rewrite Hfile.
  eexists. split; [reflexivity |]. split; [apply length_map |].
  assert (Hrow : forall i row, nth_error rows i = Some row ->
                   nth_error (map np_mean rows) i = Some (np_mean row)).
  { intros i row Hi. now rewrite nth_error_map, Hi. }
  split; [exact Hrow |].
  intros i l r Hi. apply Hrow in Hi.
  rewrite (nth_error_nth _ _ _ Hi). unfold np_mean, Rsum. simpl. lra.
Qed.

Lemma read_audio_downmix_witness :
  exists samples,
    read_audio "a.wav"
      {| files := fun _ => Some (WavFile 8000 (MultiChannel [[2; 4]; [-6; 0]]));
         stdout := [] |}
    = ({| files := fun _ => Some (WavFile 8000 (MultiChannel [[2; 4]; [-6; 0]]));
          stdout := [] |}, Ok (8000%Z, samples)) /\
    nth 0 samples 0 = (2 + 4) / 2.
Proof.
  destruct (read_audio_downmix "a.wav" 8000 [[2; 4]; [-6; 0]]
              {| files := fun _ => Some (WavFile 8000 (MultiChannel [[2; 4]; [-6; 0]]));
                 stdout := [] |} eq_refl)
    as (samples & Hrun & _ & _ & Hstereo).
  exists samples. split; [exact Hrun |]. now apply Hstereo.
Defined.

(** ** [main], scenario by scenario *)

Lemma conclude_without_temp_file (E : externals) (wa : world) (r : result unit) :
  files wa AUDIO_TEMP_PATH = None ->
  exists w',
    conclude E (wa, r) = (w', Ok tt) /\
    files w' = files wa /\
    stdout w' = stdout wa ++ failure_report r.
Proof.
  intros Hfile. unfold conclude, failure_report. cbn [fst snd].
  destruct r as [[] | err]; cbn [files add_stdout]; rewrite Hfile.
  - eexists. split; [reflexivity |]. split; [reflexivity |].
    now rewrite app_nil_r.
  - eexists. split; [reflexivity |]. split; reflexivity.
Qed.

(** X17: when the video cannot be opened or has no audio track, [main]
    prints the exception ([ValueError] for a missing track), writes no
    chart, and still removes a temporary file an earlier run left behind. *)
Theorem main_without_audio_track (E : externals)
    (video_path output_graph_path graph_name : string)
    (highlights : list highlight) (err : exn) (w : world) :
  VideoFileClip E video_path = Raise err \/
  (VideoFileClip E video_path = Ok {| audio := None |} /\ err = ValueError) ->
  exists w',
    main E video_path output_graph_path graph_name highlights w = (w', Ok tt) /\
    (forall p, p <> AUDIO_TEMP_PATH -> files w' p = files w p) /\
    (exists tail, stdout w' = stdout w ++ Error_in_main err :: tail) /\
    (remove_error E AUDIO_TEMP_PATH = None ->
     files w' AUDIO_TEMP_PATH = None /\
     stdout w' = stdout w ++ [Error_in_main err]).
Proof.
  intros Hclip. rewrite main_conclude.
  unfold bindM at 1. rewrite (extract_fails E _ _ err) by exact Hclip.
  destruct (files w AUDIO_TEMP_PATH) as [f |] eqn:Hfile.
  - destruct (conclude_with_temp_file E w (Raise err) f Hfile)
      as (w' & -> & Hkeep & Hout & Hgone).
    exists w'. split; [reflexivity |]. split; [exact Hkeep |]. split.
    + eexists. rewrite Hout. reflexivity.
    + intros Hrm. split; [now apply Hgone |].
      rewrite Hout. unfold removal_report. rewrite Hrm. reflexivity.
  - destruct (conclude_without_temp_file E w (Raise err) Hfile)
      as (w' & -> & Hfiles & Hout).
    exists w'. split; [reflexivity |]. split; [intros; now rewrite Hfiles |].
    split.
    + exists []. exact Hout.
    + intros _. split; [now rewrite Hfiles | exact Hout].
Qed.

Lemma main_without_audio_track_witness :
  exists w',
    main example_externals "video.mp4" "charts" "graph.png" example_highlights
      stale_world = (w', Ok tt) /\
    stdout w' = stdout stale_world ++ [Error_in_main OSError].
Proof.
  destruct (main_without_audio_track example_externals "video.mp4" "charts"
              "graph.png" example_highlights OSError stale_world)
    as (w' & Hrun & _ & _ & H).
  - left. reflexivity.
  - exists w'. split; [exact Hrun |]. now apply H.
Defined.

(** [main] when the analysis fails after a successful extraction. *)
Lemma main_analysis_fails (E : externals)
    (video_path output_graph_path graph_name : string)
    (highlights : list highlight) (track : Z * wav_data) (sr : Z)
    (data : wav_data) (err : exn) (w : world) :
  VideoFileClip E video_path = Ok {| audio := Some track |} ->
  write_audiofile_error E track AUDIO_TEMP_PATH = None ->
  written_audio E track = (sr, data) ->
  analyse_and_plot E sr (to_mono data) (path_join E output_graph_path graph_name)
    highlights (extracted w sr data) = (extracted w sr data, Raise err) ->
  exists w',
    main E video_path output_graph_path graph_name highlights w = (w', Ok tt) /\
    (forall p, p <> AUDIO_TEMP_PATH -> files w' p = files w p) /\
    stdout w' = stdout w ++ [Error_in_main err] ++ removal_report E /\
    (remove_error E AUDIO_TEMP_PATH = None -> files w' AUDIO_TEMP_PATH = None).
Proof.
  intros Hclip Hwrite Hdata Hrun.
  rewrite (main_extracted E _ _ _ _ track sr data) by assumption.
  rewrite Hrun.
  destruct (conclude_with_temp_file E (extracted w sr data) (Raise err)
              (WavFile sr data))
    as (w' & -> & Hkeep & Hout & Hgone).
  { cbn [extracted files]. unfold write_file. now rewrite String.eqb_refl. }
  exists w'. split; [reflexivity |]. split; [| split; [exact Hout | exact Hgone]].
  intros p Hp. rewrite (Hkeep p Hp). cbn [extracted files]. unfold write_file.
  destruct (String.eqb_spec p AUDIO_TEMP_PATH); [contradiction | reflexivity].
Qed.

(** X18: a temporary file written at a sample rate below 10 Hz gives a frame
    size of [0] at the fixed frame duration of a tenth of a second: [main]
    prints the wrapped division by zero and writes no chart. *)
Theorem main_low_sample_rate (E : externals)
    (video_path output_graph_path graph_name : string)
    (highlights : list highlight) (track : Z * wav_data) (sr : Z)
    (data : wav_data) (w : world) :
  VideoFileClip E video_path = Ok {| audio := Some track |} ->
  write_audiofile_error E track AUDIO_TEMP_PATH = None ->
  written_audio E track = (sr, data) ->
  (0 <= sr < 10)%Z ->
  exists w',
    main E video_path output_graph_path graph_name highlights w = (w', Ok tt) /\
    (forall p, p <> AUDIO_TEMP_PATH -> files w' p = files w p) /\
    stdout w' =
      stdout w ++ [Error_in_main (RuntimeError ZeroDivisionError)]
      ++ removal_report E.
Proof.
  intros Hclip Hwrite Hdata Hsr.
  destruct (main_analysis_fails E video_path output_graph_path graph_name
              highlights track sr data (RuntimeError ZeroDivisionError) w
              Hclip Hwrite Hdata)
    as (w' & Hrun & Hkeep & Hout & _).
  - unfold analyse_and_plot, bindM, lift.
    rewrite compute_loudness_zero; [reflexivity |].
    rewrite frame_size_tenth by lia. f_equal. apply Z.div_small. lia.
  - exists w'. auto.
Qed.

Lemma main_low_sample_rate_witness :
  exists w',
    main (video_externals 5 (Mono [0])) "video.mp4" "charts" "graph.png" []
      stale_world = (w', Ok tt) /\
    stdout w' =
      stdout stale_world ++ [Error_in_main (RuntimeError ZeroDivisionError)]
      ++ removal_report (video_externals 5 (Mono [0])).
Proof.
  destruct (main_low_sample_rate (video_externals 5 (Mono [0])) "video.mp4"
              "charts" "graph.png" [] (5%Z, Mono [0]) 5 (Mono [0]) stale_world
              eq_refl eq_refl eq_refl)
    as (w' & Hrun & _ & Hout); [lia |].
  exists w'. auto.
Defined.

Lemma n_frames_of_small (audio : list R) (fs : Z) :
  (0 < fs)%Z -> (0 < len audio <= 2 * fs)%Z ->
  (1 <= n_frames_of audio fs <= 2)%Z.
Proof.
  intros Hfs Hlen. pose proof (ceil_div_bounds (len audio) fs Hfs) as Hk.
  cbv zeta in Hk. unfold n_frames_of. nia.
Qed.

Lemma n_frames_of_large (audio : list R) (fs : Z) :
  (0 < fs)%Z -> (2 * fs < len audio)%Z -> (3 <= n_frames_of audio fs)%Z.
Proof.
  intros Hfs Hlen. pose proof (ceil_div_bounds (len audio) fs Hfs) as Hk.
  cbv zeta in Hk. unfold n_frames_of. nia.
Qed.

Lemma n_frames_of_nil (fs : Z) : n_frames_of [] fs = 0%Z.
Proof.
  unfold n_frames_of. change (- len (@nil R))%Z with 0%Z.
  now rewrite Zdiv_0_l.
Qed.

(** The loudness series [main] computes from a waveform when the frame size
    is at least [1]. *)
Lemma main_series (sr fs : Z) (samples : list R) :
  frame_size sr FRAME_DURATION = Ok fs -> (1 <= fs)%Z ->
  exists times loudness_db,
    compute_loudness samples sr FRAME_DURATION = Ok (times, loudness_db) /\
    len times = n_frames_of samples fs /\
    len loudness_db = n_frames_of samples fs.
Proof.
  intros Hsize Hfs.
  assert (Hpos : (0 < fs)%Z) by lia.
  rewrite (compute_loudness_frames _ _ _ fs Hsize Hpos).
  pose proof (n_frames_of_nonneg samples fs Hpos) as Hk.
  do 2 eexists. split; [reflexivity |].
  unfold len. rewrite !length_map, !length_range. lia.
Qed.

(** X19: a waveform of at most two frames, that is of at most
    [2 * frame_size] samples where the frame size [int(sr * 0.1)] is at
    least [1] ([sr // 10] for a sample rate from 10 Hz to 50 kHz), is never
    charted: smoothing an empty series raises [ValueError], and smoothing
    one or two values with the window of three returns three, which
    [plot_loudness] refuses against one or two time stamps. [main] prints
    the exception and writes no chart. *)
Theorem main_cannot_chart_short_audio (E : externals)
    (video_path output_graph_path graph_name : string)
    (highlights : list highlight) (track : Z * wav_data) (sr : Z)
    (data : wav_data) (w : world) :
  VideoFileClip E video_path = Ok {| audio := Some track |} ->
  write_audiofile_error E track AUDIO_TEMP_PATH = None ->
  written_audio E track = (sr, data) ->
  ((10 <= sr < 50000)%Z /\ (len (to_mono data) <= 2 * (sr / 10))%Z) \/
  (exists fs, frame_size sr FRAME_DURATION = Ok fs /\ (1 <= fs)%Z /\
              (len (to_mono data) <= 2 * fs)%Z) ->
  exists w',
    main E video_path output_graph_path graph_name highlights w = (w', Ok tt) /\
    (forall p, p <> AUDIO_TEMP_PATH -> files w' p = files w p) /\
    stdout w' =
      stdout w
      ++ [Error_in_main (match to_mono data with
                         | [] => ValueError
                         | _ :: _ => RuntimeError ValueError
                         end)]
      ++ removal_report E.
Proof.
  intros Hclip Hwrite Hdata Hshort.
  assert (Hfs : exists fs, frame_size sr FRAME_DURATION = Ok fs /\ (1 <= fs)%Z /\
                           (len (to_mono data) <= 2 * fs)%Z).
  { destruct Hshort as [[Hsr Hlen] | H]; [| exact H].
    exists (sr / 10)%Z. split; [apply frame_size_tenth; lia |].
    split; [| exact Hlen].
    assert (0 < sr / 10)%Z by (apply Z.div_str_pos; lia). lia. }
  destruct Hfs as (fs & Hsize & Hpos & Hlen). clear Hshort.
  set (samples := to_mono data) in *.
  destruct (main_series sr fs samples Hsize Hpos) as (times & l & Hrun & Htimes & Hl).
  destruct (main_analysis_fails E video_path output_graph_path graph_name
              highlights track sr data
              (match samples with [] => ValueError | _ :: _ => RuntimeError ValueError end)
              w Hclip Hwrite Hdata)
    as (w' & Hmain & Hkeep & Hout & _).
  - fold samples. unfold analyse_and_plot, bindM at 1, lift at 1. rewrite Hrun.
    unfold bindM, lift.
    destruct samples as [| x samples].
    + rewrite n_frames_of_nil in Hl.
      assert (l = []) as -> by (destruct l; [reflexivity | unfold len in Hl; simpl in Hl; lia]).
      now rewrite moving_average_no_data.
    + assert (Hk : (1 <= n_frames_of (x :: samples) fs <= 2)%Z).
      { apply n_frames_of_small; [lia |]. unfold len in *. simpl in *. lia. }
      destruct (moving_average_length l smooth_window) as (out & -> & Hlen');
        [lia | unfold smooth_window; lia |].
      apply plot_loudness_mismatch.
      unfold smooth_window, len in *. lia.
  - exists w'. auto.
Qed.

Lemma main_cannot_chart_short_audio_witness :
  exists w',
    main (video_externals 10 (Mono [0; 0])) "video.mp4" "charts" "graph.png" []
      stale_world = (w', Ok tt) /\
    stdout w' =
      stdout stale_world ++ [Error_in_main (RuntimeError ValueError)]
      ++ removal_report (video_externals 10 (Mono [0; 0])).
Proof.
  destruct (main_cannot_chart_short_audio (video_externals 10 (Mono [0; 0]))
              "video.mp4" "charts" "graph.png" [] (10%Z, Mono [0; 0]) 10
              (Mono [0; 0]) stale_world eq_refl eq_refl eq_refl)
    as (w' & Hrun & _ & Hout).
  - left. split; [lia |]. unfold len. simpl. lia.
  - exists w'. auto.
Defined.

(** X20: a waveform of more than two frames is charted: when the temporary
    file, of one channel or several, holds more than [2 * frame_size]
    samples for a frame size [int(sr * 0.1)] of at least [1], the save path
    is not empty, [savefig] does not fail and the file it writes for the
    save path is not the temporary file, [main] leaves at that file a chart
    whose curve plots the smoothed loudness of the down-mixed waveform
    against the time stamps, prints nothing but the warnings of the
    highlights, and removes the temporary file. *)
Theorem main_charts_the_loudness (E : externals)
    (video_path output_graph_path graph_name : string)
    (highlights : list highlight) (track : Z * wav_data) (sr fs : Z)
    (data : wav_data) (w : world) :
  VideoFileClip E video_path = Ok {| audio := Some track |} ->
  write_audiofile_error E track AUDIO_TEMP_PATH = None ->
  written_audio E track = (sr, data) ->
  frame_size sr FRAME_DURATION = Ok fs -> (1 <= fs)%Z ->
  (2 * fs < len (to_mono data))%Z ->
  String.eqb (path_join E output_graph_path graph_name) "" = false ->
  savefig_path E (path_join E output_graph_path graph_name) <> AUDIO_TEMP_PATH ->
  savefig_error E (path_join E output_graph_path graph_name) = None ->
  exists times loudness_db loudness_db_smooth chart w',
    compute_loudness (to_mono data) sr FRAME_DURATION = Ok (times, loudness_db) /\
    moving_average loudness_db smooth_window = Ok loudness_db_smooth /\
    length loudness_db_smooth = length times /\
    main E video_path output_graph_path graph_name highlights w = (w', Ok tt) /\
    files w' (savefig_path E (path_join E output_graph_path graph_name))
      = Some (ChartFile chart) /\
    In (Curve times loudness_db_smooth "Loudness in dB") (children chart) /\
    stdout w' =
      stdout w ++ highlight_warnings E times loudness_db_smooth highlights
      ++ removal_report E /\
    (remove_error E AUDIO_TEMP_PATH = None -> files w' AUDIO_TEMP_PATH = None).
Proof.
  intros Hclip Hwrite Hdata Hsize Hpos Hlong Hpath Hnot_temp Hsave.
  set (save_path := path_join E output_graph_path graph_name) in *.
  set (samples := to_mono data) in *.
  destruct (main_series sr fs samples Hsize Hpos) as (times & l & Hrun & Htimes & Hl).
  assert (Hfs : (0 < fs)%Z) by lia.
  pose proof (n_frames_of_large samples fs Hfs Hlong) as Hk.
  destruct (moving_average_length l smooth_window) as (out & Hsmooth & Hlen);
    [lia | unfold smooth_window; lia |].
  assert (Hsame : length out = length times)
    by (unfold smooth_window, len in *; lia).
  assert (Hne : times <> []).
  { intros ->. unfold len in Htimes. simpl in Htimes. lia. }
  exists times, l, out.
  rewrite (main_extracted E _ _ _ _ track sr data) by assumption.
  fold save_path. fold samples.
  unfold analyse_and_plot, bindM at 1, lift at 1. rewrite Hrun.
  unfold bindM, lift. rewrite Hsmooth.
  rewrite plot_loudness_run by (auto; congruence). cbv zeta.
  rewrite Hpath, Hsave. cbn [highlights_of].
  match goal with
  | |- context [conclude E (?wa, Ok tt)] =>
      destruct (conclude_with_temp_file E wa (Ok tt) (WavFile sr data))
        as (w' & -> & Hkeep & Hout & Hgone)
  end.
  { cbn [extracted files add_stdout]. unfold write_file.
    destruct (String.eqb_spec AUDIO_TEMP_PATH (savefig_path E save_path))
      as [Heq | _];
      [now symmetry in Heq | now rewrite String.eqb_refl]. }
  exists (rendered_chart E times out highlights), w'.
  split; [reflexivity |]. split; [reflexivity |]. split; [exact Hsame |].
  split; [reflexivity |]. split; [| split; [| split]].
  - rewrite (Hkeep _ Hnot_temp). cbn [files]. unfold write_file.
    now rewrite String.eqb_refl.
  - simpl. now left.
  - rewrite Hout. cbn [stdout add_stdout extracted failure_report].
    now rewrite <- app_assoc.
  - exact Hgone.
Qed.

Lemma frame_size_10_tenth : frame_size 10 FRAME_DURATION = Ok 1%Z.
Proof. vm_compute. reflexivity. Qed.

Lemma main_charts_the_loudness_witness :
  exists chart w',
    main (video_externals 10 (MultiChannel [[0; 0]; [0; 0]; [0; 0]])) "video.mp4"
      "charts" "graph.png" [] stale_world = (w', Ok tt) /\
    files w' "charts/graph.png"%string = Some (ChartFile chart) /\
    files w' AUDIO_TEMP_PATH = None.
Proof.
  assert (Hfs : (1 <= 1)%Z) by lia.
  destruct (main_charts_the_loudness
              (video_externals 10 (MultiChannel [[0; 0]; [0; 0]; [0; 0]]))
              "video.mp4" "charts" "graph.png" []
              (10%Z, MultiChannel [[0; 0]; [0; 0]; [0; 0]]) 10 1
              (MultiChannel [[0; 0]; [0; 0]; [0; 0]]) stale_world
              eq_refl eq_refl eq_refl frame_size_10_tenth Hfs)
    as (times & l & smooth & chart & w' & _ & _ & _ & Hrun & Hfile & _ & _ & Hgone);
    [unfold len; simpl; lia | reflexivity | discriminate | reflexivity |].
  exists chart, w'. split; [exact Hrun |]. split; [exact Hfile |].
  now apply Hgone.
Defined.
